(** * The product catalogue API (01_api/index.js)

    A shallow embedding of the request handlers of the Express service:
    the list operation (GET /products) with its query construction and
    pagination, the write path (POST /products, PUT /products/:id) and the
    image URL helper [getImageUrl], followed by the properties they satisfy.

    Layout:
    - [JS]      the fragment of the language's built-ins the handlers use;
    - [Api]     the handlers, over any connection pool;
    - [Sql]     the meaning of the search clause;
    - [Store]   the products table behind the pool;
    - [Script]  two pools to run the handlers against;
    - [Upload]  the file filter and the file names of the uploads;
    - [Routes]  the other routes and the configuration;
    - [Trace], [Catalogue]  a recording pool, and the table with DELETE;
    - the notions the properties are stated with, and the properties,
      operation by operation. *)

From Stdlib Require Import ZArith QArith Qround Ascii String DecimalString Bool List Lia.
From stdpp Require Import base option gmap strings list.

Open Scope Z_scope.

(* ===================================================================== *)
(** ** The JavaScript fragment *)
(* ===================================================================== *)

Module JS.

(** A string is its sequence of code units, here those below 256. *)

(** WhiteSpace and LineTerminator code units: TAB, LF, VT, FF, CR, SP, NBSP. *)
Definition is_white_space (c : ascii) : bool :=
  let n := nat_of_ascii c in
  ((9 <=? n)%nat && (n <=? 13)%nat) || (n =? 32)%nat || (n =? 160)%nat.

Fixpoint trimStart (s : string) : string :=
  match s with
  | EmptyString => EmptyString
  | String c s' => if is_white_space c then trimStart s' else s
  end.

Fixpoint trimEnd (s : string) : string :=
  match s with
  | EmptyString => EmptyString
  | String c s' =>
      match trimEnd s' with
      | EmptyString => if is_white_space c then EmptyString else String c EmptyString
      | t => String c t
      end
  end.

(** [String.prototype.trim] *)
Definition trim (s : string) : string := trimEnd (trimStart s).

(** [s.startsWith(p)] *)
Fixpoint startsWith (s p : string) : bool :=
  match p with
  | EmptyString => true
  | String a p' =>
      match s with
      | String b s' => Ascii.eqb a b && startsWith s' p'
      | EmptyString => false
      end
  end.

(** *** Numbers

    A number is an IEEE double.  The model names the doubles by
    - [Int z]      the integer [z], for [|z| <= 2^53] (every such integer
                   is a double; the two zeros are not told apart);
    - [Float m e]  the double nearest to [m * 10^e];
    - [Infinity b] and [NaN].
    A literal is read by [decimal], which rounds to the nearest double and
    overflows to an infinity; arithmetic takes the doubles its operands
    denote, computes exactly and rounds once, as IEEE 754 has it. *)
Inductive number :=
  | Int (z : Z)
  | Float (m e : Z)
  | Infinity (negative : bool)
  | NaN.

Definition MAX_SAFE : Z := 2 ^ 53.

(** The double nearest to the rational [q], ties to even: the pair [(M, u)]
    stands for [M * 2^u], with [|M| <= 2^53] and [-1074 <= u] (the subnormal
    doubles share the exponent -1074).  [None] when the rounded value is
    beyond the largest double, [(2^53 - 1) * 2^971]. *)
Definition nearest (q : Q) : option (Z * Z) :=
  let n := Qnum q in
  let d := Z.pos (Qden q) in
  if n =? 0 then Some (0, 0)
  else
    let a := Z.abs n in
    let E0 := Z.log2 a - Z.log2 d in
    let E :=
      if (if 0 <=? E0 then d * 2 ^ E0 <=? a else d <=? a * 2 ^ (- E0))
      then E0 else E0 - 1 in
    let u := Z.max (E - 52) (-1074) in
    let N := if 0 <=? u then a else a * 2 ^ (- u) in
    let D := if 0 <=? u then d * 2 ^ u else d in
    let M0 := N / D in
    let R := N mod D in
    let M := if (D <? 2 * R) || ((2 * R =? D) && Z.odd M0) then M0 + 1 else M0 in
    if (971 <? u) || ((u =? 971) && (2 ^ 53 <=? M)) then None
    else Some (Z.sgn n * M, u).

(** What a number denotes. *)
Inductive double :=
  | Finite (q : Q)
  | Infinite (negative : bool)
  | NotANumber.

Definition dyadic (M u : Z) : Q :=
  if 0 <=? u then inject_Z (M * 2 ^ u) else Qmake M (Z.to_pos (2 ^ (- u))).

Definition round (q : Q) : double :=
  match nearest q with
  | Some (M, u) => Finite (dyadic M u)
  | None => Infinite (Qnum q <? 0)
  end.

(** [m * 10^e] *)
Definition scaled (m e : Z) : Q :=
  if 0 <=? e then inject_Z (m * 10 ^ e) else Qmake m (Z.to_pos (10 ^ (- e))).

Definition denote (n : number) : double :=
  match n with
  | Int z => round (inject_Z z)
  | Float m e => round (scaled m e)
  | Infinity b => Infinite b
  | NaN => NotANumber
  end.

Definition is_zero (q : Q) : bool := Qnum q =? 0.
Definition is_negative (q : Q) : bool := Qnum q <? 0.

(** The name of the integer double [z]. *)
Definition whole (z : Z) : number :=
  if Z.abs z <=? MAX_SAFE then Int z else Float z 0.

(** The name of the double [M * 2^u], in lowest terms [M' * 2^u']:
    [M' * 2^u' = (M' * 5^-u') * 10^u'] when [u'] is negative. *)
Definition named (M u : Z) : number :=
  if 0 <=? u then whole (M * 2 ^ u)
  else
    let a := Z.abs M in
    let t := Z.min (Z.log2 (Z.land a (- a))) (- u) in
    let M' := M / 2 ^ t in
    let u' := u + t in
    if u' =? 0 then whole M' else Float (M' * 5 ^ (- u')) u'.

(** The double nearest to [q]. *)
Definition of_Q (q : Q) : number :=
  match nearest q with
  | Some (M, u) => named M u
  | None => Infinity (is_negative q)
  end.

(** The double nearest to [m * 10^e]: an integer up to [2^53] by its value,
    another double by the literal, an infinity beyond the largest double.
    A value of magnitude at most [2^-1075] (half the least positive double)
    rounds to zero. *)
Definition decimal (m e : Z) : number :=
  match nearest (scaled m e) with
  | Some (M, u) =>
      let v := if 0 <=? u then M * 2 ^ u else M / 2 ^ (- u) in
      if ((0 <=? u) || (M mod 2 ^ (- u) =? 0)) && (Z.abs v <=? MAX_SAFE) then Int v
      else Float m e
  | None => Infinity (m <? 0)
  end.

(** The double nearest to the integer [z]. *)
Definition integer (z : Z) : number :=
  if Z.abs z <=? MAX_SAFE then Int z else of_Q (inject_Z z).

(** [a - b].  Two integers up to [2^53] are subtracted exactly and the
    difference rounded; so is any other pair of finite doubles. *)
Definition sub (a b : number) : option number :=
  match a, b with
  | NaN, _ | _, NaN => Some NaN
  | Int x, Int y => Some (integer (x - y))
  | _, _ =>
      match denote a, denote b with
      | Finite x, Finite y => Some (of_Q (x - y)%Q)
      | Infinite s, Finite _ => Some (Infinity s)
      | Finite _, Infinite s => Some (Infinity (negb s))
      | Infinite s, Infinite s' =>
          Some (if Bool.eqb s s' then NaN else Infinity s)
      | _, _ => Some NaN
      end
  end.

(** [a * b]: zero times an infinity is [NaN]. *)
Definition mul (a b : number) : option number :=
  match a, b with
  | NaN, _ | _, NaN => Some NaN
  | Int x, Int y => Some (integer (x * y))
  | _, _ =>
      match denote a, denote b with
      | Finite x, Finite y => Some (of_Q (x * y)%Q)
      | Infinite s, Finite x | Finite x, Infinite s =>
          Some (if is_zero x then NaN else Infinity (xorb s (is_negative x)))
      | Infinite s, Infinite s' => Some (Infinity (xorb s s'))
      | _, _ => Some NaN
      end
  end.

(** [Math.ceil] of a finite double: an integer, hence a double. *)
Definition ceiling (q : Q) : number := whole (Qceiling q).

(** [Math.ceil(a / b)].  For two integers with [|a| <= 2^53] and [b <> 0]
    the rounded quotient lies on the same side of every integer as the exact
    one, so the ceiling is that of the exact quotient; any other pair of
    finite doubles is divided exactly, the quotient rounded to a double and
    then taken to its ceiling.  [0 / 0] is [NaN]; a non-zero dividend over
    zero is an infinity whose sign is that of the zero, which the model does
    not record: that is the one [None]. *)
Definition Math_ceil_div (a b : number) : option number :=
  match a, b with
  | NaN, _ | _, NaN => Some NaN
  | Int x, Int y =>
      if y =? 0 then (if x =? 0 then Some NaN else None)
      else Some (Int (- ((- x) / y)))
  | _, _ =>
      match denote a, denote b with
      | Finite x, Finite y =>
          if is_zero y then (if is_zero x then Some NaN else None)
          else
            match round (x / y)%Q with
            | Finite q => Some (ceiling q)
            | Infinite s => Some (Infinity s)
            | NotANumber => Some NaN
            end
      | Finite _, Infinite _ => Some (Int 0)
      | Infinite s, Finite y =>
          if is_zero y then None else Some (Infinity (xorb s (is_negative y)))
      | _, _ => Some NaN
      end
  end.

(** *** Values *)
Inductive value :=
  | Undefined
  | Null
  | Str (s : string)
  | Num (n : number).

#[global] Instance number_eq_dec : EqDecision number.
Proof. solve_decision. Defined.
#[global] Instance value_eq_dec : EqDecision value.
Proof. solve_decision. Defined.

(** ToBoolean: of the numbers, zero and [NaN] are falsy. *)
Definition truthy (v : value) : bool :=
  match v with
  | Undefined | Null => false
  | Str s => negb (String.eqb s EmptyString)
  | Num (Int z) => negb (z =? 0)
  | Num NaN => false
  | Num (Infinity _) => true
  | Num (Float m e) =>
      match round (scaled m e) with
      | Finite q => negb (is_zero q)
      | _ => true
      end
  end.

(** [a || b] *)
Definition or_else (a b : value) : value := if truthy a then a else b.

(** A property of [req.query] or [req.body]: [undefined] when absent. *)
Definition prop (o : option string) : value :=
  match o with Some s => Str s | None => Undefined end.

(** *** Numeric literals *)

Definition digit_value (c : ascii) : option Z :=
  let n := Z.of_nat (nat_of_ascii c) in
  if (48 <=? n) && (n <=? 57) then Some (n - 48)
  else if (97 <=? n) && (n <=? 122) then Some (n - 87)
  else if (65 <=? n) && (n <=? 90) then Some (n - 55)
  else None.

(** The longest prefix of digits of the radix: its value and length (when
    it is not empty) and the rest of the string. *)
Fixpoint digits (radix : Z) (s : string) (acc : Z) (len : Z) : option (Z * Z) * string :=
  match s with
  | EmptyString => (if len =? 0 then None else Some (acc, len), s)
  | String c s' =>
      match digit_value c with
      | Some d =>
          if d <? radix then digits radix s' (acc * radix + d) (len + 1)
          else (if len =? 0 then None else Some (acc, len), s)
      | None => (if len =? 0 then None else Some (acc, len), s)
      end
  end.

Definition sign (s : string) : bool * string :=
  match s with
  | String "-" r => (true, r)
  | String "+" r => (false, r)
  | _ => (false, s)
  end.

Definition signed (negative : bool) (z : Z) : Z := if negative then - z else z.

(** [parseInt(string)], no radix given: leading white space, a sign, an
    optional [0x], then the longest run of digits. *)
Definition parseInt_string (s : string) : number :=
  let '(negative, s2) := sign (trimStart s) in
  let '(radix, s3) :=
    match s2 with
    | String "0" (String "x" r) | String "0" (String "X" r) => (16, r)
    | _ => (10, s2)
    end in
  match digits radix s3 0 0 with
  | (Some (v, _), _) => decimal (signed negative v) 0
  | (None, _) => NaN
  end.

(** *** Numbers as strings

    [Number::toString] prints a finite double [x] other than zero from the
    integers [n], [k] and [s] with [10^(k-1) <= s < 10^k] such that
    [s * 10^(n-k)] reads back as [x] and [k] is as small as possible, [s]
    being the one nearest to [x] when there are several. *)

(** [q < 10^n], for a positive [q]. *)
Definition below_power (q : Q) (n : Z) : bool :=
  if 0 <=? n then Qnum q <? 10 ^ n * Z.pos (Qden q)
  else Qnum q * 10 ^ (- n) <? Z.pos (Qden q).

(** The [n] with [10^(n-1) <= q < 10^n], for a positive [q]: the estimate
    [log2 q * log10 2] is at most two below it. *)
Definition magnitude (q : Q) : Z :=
  let n := (Z.log2 (Qnum q) - Z.log2 (Z.pos (Qden q))) * 30103 / 100000 in
  if below_power q n then n
  else if below_power q (n + 1) then n + 1
  else n + 2.

(** The decimal [s * 10^p] reads back as the double [q]. *)
Definition reads_back (q : Q) (s p : Z) : bool :=
  match round (scaled s p) with
  | Finite q' => Qeq_bool q' q
  | _ => false
  end.

(** The digits [s] and the exponent [p = n - k] of the positive double [q]
    of magnitude [n], trying [k], [k + 1], ...: the two decimals of [k]
    digits around [q] are [lo * 10^p <= q < (lo + 1) * 10^p].  Seventeen
    digits tell any two doubles apart. *)
Fixpoint shortest_from (fuel : nat) (q : Q) (n k : Z) : Z * Z :=
  let p := n - k in
  let lo := Qfloor (q / scaled 1 p) in
  let hi := lo + 1 in
  match fuel with
  | O => (lo, p)
  | S fuel' =>
      match reads_back q lo p, reads_back q hi p with
      | true, true =>
          match (q - scaled lo p ?= scaled hi p - q)%Q with
          | Lt => (lo, p)
          | Gt => (hi, p)
          | Eq => if Z.even lo then (lo, p) else (hi, p)
          end
      | true, false => (lo, p)
      | false, true => (hi, p)
      | false, false => shortest_from fuel' q n (k + 1)
      end
  end.

Definition shortest (q : Q) : Z * Z := shortest_from 17 q (magnitude q) 1.

(** [parseInt] of the string of a finite double [q] other than zero, of
    digits [s] and exponent [p]: with the decimal point after [n] digits,
    plain notation ([-6 < n <= 21]) shows the integer part in full, and
    exponent notation shows one digit before the point or the [e]. *)
Definition parseInt_double (q : Q) : number :=
  let '(s, p) := shortest (Qmake (Z.abs (Qnum q)) (Qden q)) in
  let k := magnitude (inject_Z s) in
  let n := k + p in
  let v :=
    if (-6 <? n) && (n <=? 21)
    then (if 0 <=? p then s * 10 ^ p else s / 10 ^ (- p))
    else s / 10 ^ (k - 1) in
  decimal (signed (is_negative q) v) 0.

(** [parseInt(v)]: the argument is converted to a string first.  An integer
    up to [2^53] prints as its digits; [undefined], [null], [NaN] and the
    infinities print as words. *)
Definition parseInt (v : value) : option number :=
  match v with
  | Str s => Some (parseInt_string s)
  | Num (Int z) => Some (Int z)
  | Num (Float m e) =>
      match round (scaled m e) with
      | Finite q => Some (if is_zero q then Int 0 else parseInt_double q)
      | _ => Some NaN
      end
  | _ => Some NaN
  end.

(** The exponent part [e[+-]digits] of a decimal literal; an incomplete one
    is not part of the literal. *)
Definition exponent (s : string) : Z * string :=
  match s with
  | String "e" r | String "E" r =>
      let '(negative, r') := sign r in
      match digits 10 r' 0 0 with
      | (Some (v, _), rest) => (signed negative v, rest)
      | (None, _) => (0, s)
      end
  | _ => (0, s)
  end.

(** The longest prefix that is a StrDecimalLiteral: the double it denotes
    and the rest of the string. *)
Definition decimal_literal (s : string) : option (number * string) :=
  let '(negative, s1) := sign s in
  if startsWith s1 "Infinity" then
    Some (Infinity negative, String.substring 8 (String.length s1 - 8) s1)
  else
    let '(ip, s2) := digits 10 s1 0 0 in
    let '(fp, s3) :=
      match s2 with
      | String "." r =>
          match digits 10 r 0 0 with
          | (Some f, rest) => (Some f, rest)
          | (None, _) => (None, match ip with Some _ => r | None => s2 end)
          end
      | _ => (None, s2)
      end in
    match ip, fp with
    | None, None => None
    | _, _ =>
        let '(i, _) := default (0, 0) ip in
        let '(f, flen) := default (0, 0) fp in
        let '(ex, rest) := exponent s3 in
        Some (decimal (signed negative (i * 10 ^ flen + f)) (ex - flen), rest)
    end.

(** [parseFloat(v)] on a string or [undefined]. *)
Definition parseFloat (v : value) : number :=
  match v with
  | Str s =>
      match decimal_literal (trimStart s) with
      | Some (n, _) => n
      | None => NaN
      end
  | Num n => n
  | _ => NaN
  end.

(** The radix of a prefix [0x], [0o] or [0b]. *)
Definition radix_of (c : ascii) : option Z :=
  if existsb (Ascii.eqb c) ["x"; "X"]%char then Some 16
  else if existsb (Ascii.eqb c) ["o"; "O"]%char then Some 8
  else if existsb (Ascii.eqb c) ["b"; "B"]%char then Some 2
  else None.

(** StringToNumber: the whole trimmed string must be a numeric literal, a
    decimal one or unsigned digits after [0x], [0o] or [0b]. *)
Definition StringToNumber (s : string) : option number :=
  let t := trim s in
  if String.eqb t EmptyString then Some (Int 0)
  else
    match decimal_literal t with
    | Some (n, EmptyString) => Some n
    | Some (_, _) =>
        match t with
        | String "0" (String c r) =>
            match radix_of c with
            | Some radix =>
                match digits radix r 0 0 with
                | (Some (v, _), EmptyString) => Some (decimal v 0)
                | _ => Some NaN
                end
            | None => Some NaN
            end
        | _ => Some NaN
        end
    | None => Some NaN
    end.

(** ToNumber *)
Definition ToNumber (v : value) : option number :=
  match v with
  | Undefined => Some NaN
  | Null => Some (Int 0)
  | Str s => StringToNumber s
  | Num n => Some n
  end.

End JS.

(* ===================================================================== *)
(** ** The handlers *)
(* ===================================================================== *)

Module Api.
Import JS.

(** A row of a result set, and any other plain object: its properties. *)
Abbreviation row := (gmap string value).

(** What a handler can throw: a TypeError of the language, or an error of
    the driver carrying [e.code]. *)
Inductive exn :=
  | TypeError
  | SqlError (code : string).

(** The outcome of a computation.  [Unmodelled] marks a run that needs the
    one result the numbers of [JS] do not give, the sign of a quotient by
    zero.  It is no behaviour of the program and no handler catches it. *)
Inductive outcome (A : Type) :=
  | Return (a : A)
  | Throw (e : exn)
  | Unmodelled.
Arguments Return {A} a.
Arguments Throw {A} e.
Arguments Unmodelled {A}.

(** The header [pool.query] resolves to for INSERT, UPDATE and DELETE. *)
Record ResultSetHeader := { insertId : Z; affectedRows : Z }.

(** The connection pool: [pool.query(sql, values)] resolves to the rows of
    a SELECT, or to the header of a write, or rejects with an error. *)
Class Pool (DB : Type) := {
  select : string → list value → DB → DB * (exn + list row);
  execute : string → list value → DB → DB * (exn + ResultSetHeader)
}.

(** The parts of the request the handlers read.  [file] is the name multer
    gave the stored upload ([req.file.filename]), when there is one. *)
Record request := {
  protocol : string;
  host : string;
  query : gmap string string;
  body : gmap string string;
  file : option string;
  params_id : string
}.

Record pagination := {
  total : value;
  page : number;
  limit : number;
  totalPages : number
}.

Inductive json :=
  | Error (error : string)
  | Product (p : row)
  | Listing (data : list row) (p : pagination).

(** [res.status(n).json(b)] *)
Record response := { status : Z; payload : json }.

(** [o.k] *)
Definition get (o : row) (k : string) : value := default Undefined (o !! k).

(** Helper function to get full image URL.  A value that is neither falsy
    nor a string has no [startsWith]. *)
Definition getImageUrl (imageUrl : value) (req : request) : outcome value :=
  if negb (truthy imageUrl) then Return Null
  else
    match imageUrl with
    | Str s =>
        if startsWith s "http://" || startsWith s "https://" then Return imageUrl
        else if startsWith s "/uploads/" then
          Return (Str (protocol req +:+ "://" +:+ host req +:+ s))
        else Return imageUrl
    | _ => Throw TypeError
    end.

(** *** The list operation: the filters (lines 82-114) *)

Record statements := {
  sql : string;
  countSql : string;
  params : list value;
  countParams : list value
}.

Definition filters (search category minPrice maxPrice : option string) : statements :=
  let s0 := {| sql := "SELECT * FROM products WHERE 1=1";
               countSql := "SELECT COUNT(*) as total FROM products WHERE 1=1";
               params := []; countParams := [] |} in
  let s1 :=
    match search with
    | Some search =>
        if truthy (Str search) then
          let searchTerm := Str ("%" +:+ search +:+ "%") in
          {| sql := sql s0 +:+ " AND (name LIKE ? OR description LIKE ?)";
             countSql := countSql s0 +:+ " AND (name LIKE ? OR description LIKE ?)";
             params := params s0 ++ [searchTerm; searchTerm];
             countParams := countParams s0 ++ [searchTerm; searchTerm] |}
        else s0
    | None => s0
    end in
  let s2 :=
    if truthy (prop category) then
      {| sql := sql s1 +:+ " AND category = ?";
         countSql := countSql s1 +:+ " AND category = ?";
         params := params s1 ++ [prop category];
         countParams := countParams s1 ++ [prop category] |}
    else s1 in
  let s3 :=
    if truthy (prop minPrice) then
      {| sql := sql s2 +:+ " AND price >= ?";
         countSql := countSql s2 +:+ " AND price >= ?";
         params := params s2 ++ [Num (parseFloat (prop minPrice))];
         countParams := countParams s2 ++ [Num (parseFloat (prop minPrice))] |}
    else s2 in
  if truthy (prop maxPrice) then
    {| sql := sql s3 +:+ " AND price <= ?";
       countSql := countSql s3 +:+ " AND price <= ?";
       params := params s3 ++ [Num (parseFloat (prop maxPrice))];
       countParams := countParams s3 ++ [Num (parseFloat (prop maxPrice))] |}
  else s3.

(** [const { ..., page = 1, limit = 20 } = req.query]: the default stands
    in for a property that is undefined. *)
Definition page_of (req : request) : value :=
  match query req !! "page" with Some s => Str s | None => Num (Int 1) end.

Definition limit_of (req : request) : value :=
  match query req !! "limit" with Some s => Str s | None => Num (Int 20) end.

(** [(page - 1) * limit] *)
Definition offset_of (page limit : value) : option number :=
  p ← ToNumber page; d ← sub p (Int 1); l ← ToNumber limit; mul d l.

(** Lines 80-118: the two statements as they are sent to the pool. *)
Definition list_statements (req : request) : option statements :=
  let s := filters (query req !! "search") (query req !! "category")
                   (query req !! "minPrice") (query req !! "maxPrice") in
  offset ← offset_of (page_of req) (limit_of req);
  lim ← parseInt (limit_of req);
  off ← parseInt (Num offset);
  Some {| sql := sql s +:+ " ORDER BY createdAt DESC LIMIT ? OFFSET ?";
          countSql := countSql s;
          params := params s ++ [Num lim; Num off];
          countParams := countParams s |}.

(** [Math.ceil(total / limit)] *)
Definition totalPages_of (total limit : value) : option number :=
  t ← ToNumber total; l ← ToNumber limit; Math_ceil_div t l.

(** The statements of the single-product operations. *)
Definition INSERT : string :=
  "INSERT INTO products (name, slug, description, price, category, stock, imageUrl) VALUES (?, ?, ?, ?, ?, ?, ?)".
Definition UPDATE : string :=
  "UPDATE products SET name=?, slug=?, description=?, price=?, category=?, stock=?, imageUrl=? WHERE id=?".
Definition SELECT_BY_ID : string := "SELECT * FROM products WHERE id = ?".

Section Handlers.
Context {DB : Type} `{Pool DB}.

(** An asynchronous computation against the pool. *)
Definition M (A : Type) : Type := DB → DB * outcome A.

Definition ret {A} (a : A) : M A := λ db, (db, Return a).
Definition throw {A} (e : exn) : M A := λ db, (db, Throw e).

Definition bind {A B} (m : M A) (k : A → M B) : M B := λ db,
  match m db with
  | (db', Return a) => k a db'
  | (db', Throw e) => (db', Throw e)
  | (db', Unmodelled) => (db', Unmodelled)
  end.

(** [try { m } catch (e) { h e }] *)
Definition try_catch {A} (m : M A) (h : exn → M A) : M A := λ db,
  match m db with
  | (db', Throw e) => h e db'
  | r => r
  end.

(** A pure step that may throw. *)
Definition pure {A} (o : outcome A) : M A := λ db, (db, o).

(** A numeric step, where the numbers of [JS] give its result. *)
Definition model {A} (o : option A) : M A := λ db,
  (db, match o with Some a => Return a | None => Unmodelled end).

(** [await pool.query(sql, values)] *)
Definition query_rows (text : string) (values : list value) : M (list row) := λ db,
  match select text values db with
  | (db', inl e) => (db', Throw e)
  | (db', inr rows) => (db', Return rows)
  end.

Definition query_header (text : string) (values : list value) : M ResultSetHeader := λ db,
  match execute text values db with
  | (db', inl e) => (db', Throw e)
  | (db', inr h) => (db', Return h)
  end.

Notation "x <~ m ;; k" := (bind m (λ x, k))
  (at level 100, m at next level, right associativity).

(** [rows.map(product => ({ ...product, imageUrl: getImageUrl(product.imageUrl, req) }))] *)
Fixpoint with_full_urls (rows : list row) (req : request) : outcome (list row) :=
  match rows with
  | [] => Return []
  | product :: rest =>
      match getImageUrl (get product "imageUrl") req with
      | Return url =>
          match with_full_urls rest req with
          | Return rest' => Return (<["imageUrl" := url]> product :: rest')
          | o => o
          end
      | Throw e => Throw e
      | Unmodelled => Unmodelled
      end
  end.

(** [{ ...p, imageUrl: getImageUrl(p.imageUrl, req) }] *)
Definition with_full_url (p : row) (req : request) : outcome row :=
  match getImageUrl (get p "imageUrl") req with
  | Return url => Return (<["imageUrl" := url]> p)
  | Throw e => Throw e
  | Unmodelled => Unmodelled
  end.

(** Get all products (with search & filter) *)
Definition get_products (req : request) : M response :=
  try_catch
    (s <~ model (list_statements req) ;;
     rows <~ query_rows (sql s) (params s) ;;
     countResult <~ query_rows (countSql s) (countParams s) ;;
     first <~ pure (match countResult !! 0%nat with
                    | Some r => Return r
                    | None => Throw TypeError
                    end) ;;
     let total := get first "total" in
     productsWithFullUrls <~ pure (with_full_urls rows req) ;;
     pg <~ model (parseInt (page_of req)) ;;
     lim <~ model (parseInt (limit_of req)) ;;
     pages <~ model (totalPages_of total (limit_of req)) ;;
     ret {| status := 200;
            payload := Listing productsWithFullUrls
                         {| total := total; page := pg; limit := lim;
                            totalPages := pages |} |})
    (λ e, ret {| status := 500; payload := Error "Failed to fetch products" |}).

(** Lines 171-177 and 209-215: uploaded file > provided URL > the value
    the variable was initialised with. *)
Definition final_image_url (initial : value) (req : request) : value :=
  match file req with
  | Some filename => Str ("/uploads/" +:+ filename)
  | None =>
      match body req !! "imageUrl" with
      | Some imageUrl =>
          if truthy (Str imageUrl) && truthy (Str (trim imageUrl))
          then Str (trim imageUrl) else initial
      | None => initial
      end
  end.

(** The bound values of the INSERT and, followed by the id, of the UPDATE. *)
Definition columns (req : request) (finalImageUrl : value) : option (list value) :=
  let name := prop (body req !! "name") in
  let slug := prop (body req !! "slug") in
  let description := prop (body req !! "description") in
  let price := prop (body req !! "price") in
  let category := prop (body req !! "category") in
  let stock := prop (body req !! "stock") in
  n ← parseInt stock;
  Some [name; slug; or_else description Null; Num (parseFloat price); category;
        or_else (Num n) (Num (Int 0)); finalImageUrl].

(** Create product *)
Definition post_products (req : request) : M response :=
  try_catch
    (let name := prop (body req !! "name") in
     let slug := prop (body req !! "slug") in
     let price := prop (body req !! "price") in
     let category := prop (body req !! "category") in
     if negb (truthy name) || negb (truthy slug) || negb (truthy price)
        || negb (truthy category)
     then ret {| status := 400; payload := Error "Missing required fields" |}
     else
       let finalImageUrl := final_image_url Null req in
       values <~ model (columns req finalImageUrl) ;;
       result <~ query_header INSERT values ;;
       newProduct <~ query_rows SELECT_BY_ID [Num (Int (insertId result))] ;;
       p <~ pure (match newProduct !! 0%nat with
                  | Some r => with_full_url r req
                  | None => Throw TypeError
                  end) ;;
       ret {| status := 201; payload := Product p |})
    (λ e,
       match e with
       | SqlError "ER_DUP_ENTRY" =>
           ret {| status := 400; payload := Error "Product slug already exists" |}
       | _ => ret {| status := 500; payload := Error "Failed to create product" |}
       end).

(** Update product *)
Definition put_products (req : request) : M response :=
  try_catch
    (existing <~ query_rows SELECT_BY_ID [Str (params_id req)] ;;
     match existing with
     | [] => ret {| status := 404; payload := Error "Product not found" |}
     | first :: _ =>
         let finalImageUrl := final_image_url (get first "imageUrl") req in
         values <~ model (columns req finalImageUrl) ;;
         _ <~ query_header UPDATE (values ++ [Str (params_id req)]) ;;
         updated <~ query_rows SELECT_BY_ID [Str (params_id req)] ;;
         p <~ pure (match updated !! 0%nat with
                    | Some r => with_full_url r req
                    | None => Throw TypeError
                    end) ;;
         ret {| status := 200; payload := Product p |}
     end)
    (λ e, ret {| status := 500; payload := Error "Failed to update product" |}).

End Handlers.

End Api.

(* ===================================================================== *)
(** ** The search clause *)
(* ===================================================================== *)

Module Sql.
Import JS Api.

(** Modelled from the spec: the collation of the name and description
    columns (the table's declaration is not among the sources), under which
    text is compared without regard to case. *)
Definition fold (c : ascii) : ascii :=
  let n := nat_of_ascii c in
  if ((65 <=? n)%nat && (n <=? 90)%nat)%bool then ascii_of_nat (n + 32) else c.

Definition same (a b : ascii) : bool := Ascii.eqb (fold a) (fold b).

(** [s LIKE pattern]: [%] stands for any run of characters, [_] for any one
    character, and a backslash takes the next character literally. *)
Fixpoint like (pattern s : string) : bool :=
  match pattern with
  | EmptyString => match s with EmptyString => true | _ => false end
  | String c p =>
      if Ascii.eqb c "%" then
        (fix any (s : string) : bool :=
           like p s || match s with String _ s' => any s' | EmptyString => false end) s
      else if Ascii.eqb c "_" then
        match s with String _ s' => like p s' | EmptyString => false end
      else if Ascii.eqb c "\" then
        match p with
        | String c' p' =>
            match s with
            | String d s' => same c' d && like p' s'
            | EmptyString => false
            end
        | EmptyString =>
            match s with String d EmptyString => same c d | _ => false end
        end
      else
        match s with
        | String d s' => same c d && like p s'
        | EmptyString => false
        end
  end.

(** A comparison with NULL is unknown, and such a row is not selected. *)
Definition like_value (v pattern : value) : bool :=
  match v, pattern with
  | Str s, Str p => like p s
  | _, _ => false
  end.

(** [(name LIKE ? OR description LIKE ?)] with its two bound values. *)
Definition search_clause (p1 p2 : value) (r : row) : bool :=
  like_value (get r "name") p1 || like_value (get r "description") p2.

(** The characters LIKE reads as part of the pattern. *)
Definition is_pattern_char (c : ascii) : bool :=
  Ascii.eqb c "%" || Ascii.eqb c "_" || Ascii.eqb c "\".

Fixpoint plain (term : string) : bool :=
  match term with
  | EmptyString => true
  | String c t => negb (is_pattern_char c) && plain t
  end.

(** [term] occurs at the start of [s], letter case apart. *)
Fixpoint starts_with_ci (term s : string) : bool :=
  match term, s with
  | EmptyString, _ => true
  | String _ _, EmptyString => false
  | String a t, String b s' => same a b && starts_with_ci t s'
  end.

(** [term] occurs somewhere in [s], letter case apart. *)
Fixpoint contains_ci (term s : string) : bool :=
  starts_with_ci term s
  || match s with String _ s' => contains_ci term s' | EmptyString => false end.

Definition value_contains_ci (term : string) (v : value) : bool :=
  match v with Str s => contains_ci term s | _ => false end.

End Sql.

(* ===================================================================== *)
(** ** The products table *)
(* ===================================================================== *)

Module Store.
Import JS Api.

(** Modelled from the spec: the products table (its declaration is not among
    the sources).  A product has a generated unique identifier and the
    columns the statements name; the slug is unique, and a write that would
    store a slug twice is rejected with ER_DUP_ENTRY.  No other constraint
    of the columns is modelled.  The creation
    timestamp, which no handler reads or binds, is left out. *)
Record product := {
  id : Z;
  name : value;
  slug : value;
  description : value;
  price : value;
  category : value;
  stock : value;
  imageUrl : value
}.

Record table := {
  products : gmap Z product;
  auto_increment : Z
}.

(** The driver writes [undefined] as NULL. *)
Definition sql_value (v : value) : value :=
  match v with Undefined => Null | _ => v end.

(** The key a bound value selects in [WHERE id = ?]: text is read as the
    number it starts with, and as 0 when it starts with none. *)
Definition key_of (v : value) : option Z :=
  match v with
  | Num (Int z) => Some z
  | Str s =>
      match parseFloat (Str s) with
      | Int z => Some z
      | NaN => Some 0
      | _ => None
      end
  | _ => None
  end.

(** Some product other than [except] has the slug (NULL is no duplicate). *)
Definition taken (s : value) (except : option Z) (t : table) : bool :=
  bool_decide (s ≠ Null)
  && existsb (λ kp, bool_decide (slug (snd kp) = s)
                    && negb (bool_decide (Some (fst kp) = except)))
             (map_to_list (products t)).

(** The driver writes a number as it prints: NaN and the infinities print
    as words, which the server does not take for a value. *)
Definition finite (v : value) : bool :=
  match v with
  | Num NaN | Num (Infinity _) => false
  | Num (Float m e) =>
      match round (scaled m e) with
      | Finite _ => true
      | _ => false
      end
  | _ => true
  end.

Definition to_row (p : product) : row :=
  list_to_map [("id", Num (Int (id p))); ("name", name p); ("slug", slug p);
               ("description", description p); ("price", price p);
               ("category", category p); ("stock", stock p);
               ("imageUrl", imageUrl p)].

Definition select_by_id (values : list value) (t : table) : table * (exn + list row) :=
  match values with
  | [v] =>
      match key_of v ≫= λ k, products t !! k with
      | Some p => (t, inr [to_row p])
      | None => (t, inr [])
      end
  | _ => (t, inl (SqlError "ER_PARSE_ERROR"))
  end.

Definition insert_product (values : list value) (t : table) : table * (exn + ResultSetHeader) :=
  match sql_value <$> values with
  | [n; s; d; p; c; st; i] =>
      if negb (forallb finite values) then (t, inl (SqlError "ER_BAD_FIELD_ERROR"))
      else if taken s None t then (t, inl (SqlError "ER_DUP_ENTRY"))
      else
        let k := auto_increment t in
        ({| products :=
              <[k := {| id := k; name := n; slug := s; description := d; price := p;
                        category := c; stock := st; imageUrl := i |}]> (products t);
            auto_increment := k + 1 |},
         inr {| insertId := k; affectedRows := 1 |})
  | _ => (t, inl (SqlError "ER_PARSE_ERROR"))
  end.

Definition update_product (values : list value) (t : table) : table * (exn + ResultSetHeader) :=
  match sql_value <$> values with
  | [n; s; d; p; c; st; i; v] =>
      if negb (forallb finite values) then (t, inl (SqlError "ER_BAD_FIELD_ERROR"))
      else
      match key_of v ≫= λ k, products t !! k with
      | Some old =>
          let k := id old in
          if taken s (Some k) t then (t, inl (SqlError "ER_DUP_ENTRY"))
          else
            ({| products :=
                  <[k := {| id := k; name := n; slug := s; description := d; price := p;
                            category := c; stock := st; imageUrl := i |}]> (products t);
                auto_increment := auto_increment t |},
             inr {| insertId := 0; affectedRows := 1 |})
      | None => (t, inr {| insertId := 0; affectedRows := 0 |})
      end
  | _ => (t, inl (SqlError "ER_PARSE_ERROR"))
  end.

(** The statements of the single-product operations.  The list statements
    are not given a meaning by this table: it answers them, like any text it
    does not know, with an error. *)
#[global] Instance table_pool : Pool table := {|
  select text values t :=
    if String.eqb text SELECT_BY_ID then select_by_id values t
    else (t, inl (SqlError "ER_PARSE_ERROR"));
  execute text values t :=
    if String.eqb text INSERT then insert_product values t
    else if String.eqb text UPDATE then update_product values t
    else (t, inl (SqlError "ER_PARSE_ERROR"))
|}.

End Store.

(** A pool that answers each SELECT with the next result of a script, for
    exercising the list operation. *)
Module Script.
Import JS Api.

#[global] Instance script_pool : Pool (list (list row)) := {|
  select _ _ script :=
    match script with
    | rows :: rest => (rest, inr rows)
    | [] => ([], inl (SqlError "ECONNREFUSED"))
    end;
  execute _ _ script := (script, inl (SqlError "ECONNREFUSED"))
|}.

(** A pool that keeps a journal of the statements it is sent, and rejects
    them all. *)
Record journal := { sent : list (string * list value) }.

#[global] Instance journal_pool : Pool journal := {|
  select text values j :=
    ({| sent := sent j ++ [(text, values)] |}, inl (SqlError "ECONNREFUSED"));
  execute text values j :=
    ({| sent := sent j ++ [(text, values)] |}, inl (SqlError "ECONNREFUSED"))
|}.

End Script.

(* ===================================================================== *)
(** ** The upload configuration (multer) *)
(* ===================================================================== *)

Module Upload.
Import JS.

(** [Number::toString] of an integer below 10^21: its decimal digits. *)
Definition ToString_int (z : Z) : string := NilZero.string_of_int (Z.to_int z).

(** The separators that end a path are skipped. *)
Fixpoint drop_slashes (l : list ascii) : list ascii :=
  match l with
  | c :: l' => if Ascii.eqb c "/" then drop_slashes l' else l
  | [] => []
  end.

(** The last portion of a path, read from its end. *)
Fixpoint last_portion (l : list ascii) : list ascii :=
  match l with
  | c :: l' => if Ascii.eqb c "/" then [] else c :: last_portion l'
  | [] => []
  end.

(** What stands before and after the first dot of a list. *)
Fixpoint split_dot (l : list ascii) : option (list ascii * list ascii) :=
  match l with
  | c :: l' =>
      if Ascii.eqb c "." then Some ([], l')
      else match split_dot l' with
           | Some (a, b) => Some (c :: a, b)
           | None => None
           end
  | [] => None
  end.

(** [path.extname] (POSIX): from the last dot of the last portion of the
    path to its end; empty when the portion has no dot, when its only dot
    is its first character, and for the portion [..]. *)
Definition extname (path : string) : string :=
  let portion := last_portion (drop_slashes (rev (list_ascii_of_string path))) in
  match split_dot portion with
  | None => EmptyString
  | Some (_, []) => EmptyString
  | Some ([], ["."%char]) => EmptyString
  | Some (after, _) => string_of_list_ascii ("."%char :: rev after)
  end.

(** [String.prototype.toLowerCase] on the code units below 256: the
    letters A-Z and the accented capitals of Latin-1. *)
Definition lower (c : ascii) : ascii :=
  let n := nat_of_ascii c in
  if ((65 <=? n)%nat && (n <=? 90)%nat)
     || ((192 <=? n)%nat && (n <=? 222)%nat && negb (n =? 215)%nat)
  then ascii_of_nat (n + 32) else c.

Fixpoint toLowerCase (s : string) : string :=
  match s with
  | EmptyString => EmptyString
  | String c s' => String (lower c) (toLowerCase s')
  end.

(** A small letter a-z. *)
Definition is_small_letter (c : ascii) : bool :=
  let n := nat_of_ascii c in (97 <=? n)%nat && (n <=? 122)%nat.

(** [s.includes(w)] *)
Fixpoint includes (s w : string) : bool :=
  startsWith s w
  || match s with String _ s' => includes s' w | EmptyString => false end.

(** [/jpeg|jpg|png|gif|webp/.test(s)]: one of the words occurs in [s]. *)
Definition types : list string := ["jpeg"; "jpg"; "png"; "gif"; "webp"].
Definition types_test (s : string) : bool := existsb (includes s) types.

(** [fileFilter]: [cb(null, true)] or [cb(new Error('Images only!'))]. *)
Definition fileFilter (originalname mimetype : string) : string + bool :=
  let ext := types_test (toLowerCase (extname originalname)) in
  let mime := types_test mimetype in
  if ext && mime then inr true else inl "Images only!".

(** [filename], for [now = Date.now()] and
    [random = Math.round(Math.random() * 1E9)]. *)
Definition filename (now random : Z) (originalname : string) : string :=
  let suffix := ToString_int now +:+ "-" +:+ ToString_int random in
  suffix +:+ extname originalname.

End Upload.

(* ===================================================================== *)
(** ** The other routes and the configuration *)
(* ===================================================================== *)

Module Routes.
Import JS Api.

Definition SELECT_ONE : string := "SELECT 1 AS ok".
Definition DELETE : string := "DELETE FROM products WHERE id = ?".
Definition SELECT_CATEGORIES : string :=
  "SELECT DISTINCT category FROM products ORDER BY category".

(** The bodies of the responses of these routes. *)
Inductive reply :=
  | Health (db : bool)
  | HealthError (message : string)
  | Failure (error : string)
  | Deleted (message : string) (id : string)
  | Categories (names : list value).

Record answer := { code : Z; content : reply }.

(** [process.env]. *)
Abbreviation environment := (gmap string string).

(** [process.env.KEY || fallback] *)
Definition env_or (env : environment) (key : string) (fallback : value) : value :=
  or_else (prop (env !! key)) fallback.

(** The options of [mysql.createPool] read from the environment. *)
Definition db_host (env : environment) : value := env_or env "DB_HOST" (Str "localhost").
Definition db_user (env : environment) : value := env_or env "DB_USER" (Str "root").
Definition db_password (env : environment) : value := env_or env "DB_PASSWORD" (Str EmptyString).
Definition db_name (env : environment) : value := env_or env "DB_NAME" (Str "products_db").
Definition db_port (env : environment) : option number :=
  ToNumber (env_or env "DB_PORT" (Num (Int 3306))).

(** [Number(process.env.PORT || 3001)] *)
Definition port (env : environment) : option number :=
  ToNumber (env_or env "PORT" (Num (Int 3001))).

Section Handlers.
Context {DB : Type} `{Pool DB}.

Notation "x <~ m ;; k" := (bind m (λ x, k))
  (at level 100, m at next level, right associativity).

(** Health check.  [message] gives [e.message]. *)
Definition health (message : exn → string) : M answer :=
  try_catch
    (rows <~ query_rows SELECT_ONE [] ;;
     first <~ pure (match rows !! 0%nat with
                    | Some r => Return r
                    | None => Throw TypeError
                    end) ;;
     ret {| code := 200;
            content := Health (bool_decide (get first "ok" = Num (Int 1))) |})
    (λ e, ret {| code := 500; content := HealthError (message e) |}).

(** Get single product *)
Definition get_product (req : request) : M response :=
  try_catch
    (rows <~ query_rows SELECT_BY_ID [Str (params_id req)] ;;
     match rows with
     | [] => ret {| status := 404; payload := Error "Product not found" |}
     | first :: _ =>
         product <~ pure (with_full_url first req) ;;
         ret {| status := 200; payload := Product product |}
     end)
    (λ e, ret {| status := 500; payload := Error "Failed to fetch product" |}).

(** Delete product *)
Definition delete_product (req : request) : M answer :=
  try_catch
    (result <~ query_header DELETE [Str (params_id req)] ;;
     if affectedRows result =? 0
     then ret {| code := 404; content := Failure "Product not found" |}
     else ret {| code := 200; content := Deleted "Product deleted" (params_id req) |})
    (λ e, ret {| code := 500; content := Failure "Failed to delete product" |}).

(** Get categories *)
Definition categories : M answer :=
  try_catch
    (rows <~ query_rows SELECT_CATEGORIES [] ;;
     ret {| code := 200; content := Categories ((λ r, get r "category") <$> rows) |})
    (λ e, ret {| code := 500; content := Failure "Failed to fetch categories" |}).

End Handlers.

End Routes.

(** A pool that records the statements it passes on to another pool. *)
Module Trace.
Import JS Api.

Record traced (DB : Type) := {
  inner : DB;
  trace : list (string * list value)
}.
Arguments inner {DB} t.
Arguments trace {DB} t.

#[global] Instance traced_pool {DB : Type} `{Pool DB} : Pool (traced DB) := {|
  select text values s :=
    let '(db, r) := select text values (inner s) in
    ({| inner := db; trace := trace s ++ [(text, values)] |}, r);
  execute text values s :=
    let '(db, r) := execute text values (inner s) in
    ({| inner := db; trace := trace s ++ [(text, values)] |}, r)
|}.

End Trace.

(** The products table with the DELETE statement. *)
Module Catalogue.
Import JS Api Store Routes.

Definition delete_by_id (values : list value) (t : table) : table * (exn + ResultSetHeader) :=
  match values with
  | [v] =>
      match key_of v with
      | Some k =>
          match products t !! k with
          | Some _ =>
              ({| products := delete k (products t);
                  auto_increment := auto_increment t |},
               inr {| insertId := 0; affectedRows := 1 |})
          | None => (t, inr {| insertId := 0; affectedRows := 0 |})
          end
      | None => (t, inr {| insertId := 0; affectedRows := 0 |})
      end
  | _ => (t, inl (SqlError "ER_PARSE_ERROR"))
  end.

(** The pool of [Store], which also carries out a DELETE. *)
Definition pool : Pool table := {|
  select text values t := select (Pool := table_pool) text values t;
  execute text values t :=
    if String.eqb text DELETE then delete_by_id values t
    else execute (Pool := table_pool) text values t
|}.

(** The delete operation against this pool. *)
Definition remove (req : request) : table → table * outcome answer :=
  @delete_product table pool req.

End Catalogue.

(* ===================================================================== *)
(** ** The notions the properties are stated with *)
(* ===================================================================== *)

Import JS Api.

(** The predicates of the list operation as the specification words them:
    one for each parameter that is supplied, none for an absent one. *)
Inductive predicate :=
  | Search (term : string)
  | CategoryIs (category : string)
  | PriceAtLeast (minPrice : string)
  | PriceAtMost (maxPrice : string).

Definition clause (p : predicate) : string :=
  match p with
  | Search _ => " AND (name LIKE ? OR description LIKE ?)"
  | CategoryIs _ => " AND category = ?"
  | PriceAtLeast _ => " AND price >= ?"
  | PriceAtMost _ => " AND price <= ?"
  end.

Definition bound (p : predicate) : list value :=
  match p with
  | Search term => [Str ("%" +:+ term +:+ "%"); Str ("%" +:+ term +:+ "%")]
  | CategoryIs c => [Str c]
  | PriceAtLeast m => [Num (parseFloat (Str m))]
  | PriceAtMost m => [Num (parseFloat (Str m))]
  end.

Definition spec_predicates (search category minPrice maxPrice : option string) : list predicate :=
  option_list (Search <$> search) ++ option_list (CategoryIs <$> category)
  ++ option_list (PriceAtLeast <$> minPrice) ++ option_list (PriceAtMost <$> maxPrice).

(** [head] followed by the clauses, in order. *)
Definition conjunction (head : string) (ps : list predicate) : string :=
  fold_left (λ text p, text +:+ clause p) ps head.

(** The two statements with one and the same list of predicates. *)
Definition spec_statements (ps : list predicate) : statements :=
  {| sql := conjunction "SELECT * FROM products WHERE 1=1" ps;
     countSql := conjunction "SELECT COUNT(*) as total FROM products WHERE 1=1" ps;
     params := ps ≫= bound;
     countParams := ps ≫= bound |}.

(** The number of placeholders of a statement. *)
Fixpoint placeholders (text : string) : nat :=
  match text with
  | EmptyString => 0
  | String c rest => (if Ascii.eqb c "?" then 1 else 0) + placeholders rest
  end.

(** A parameter that is supplied with a value that is not empty. *)
Definition given (o : option string) : option string :=
  match o with
  | Some EmptyString => None
  | _ => o
  end.

(** The rows the search clause selects, with the values the list operation
    binds to it for a search term. *)
Definition search_selects (search : string) (r : row) : bool :=
  match params (filters (Some search) None None None) with
  | p1 :: p2 :: _ => Sql.search_clause p1 p2 r
  | _ => true
  end.

(** What [parseInt] reads from a field of the body. *)
Definition parsed_int (o : option string) : number :=
  match o with Some s => parseInt_string s | None => NaN end.

(** An infinity: what [parseInt] and [parseFloat] read from digits beyond
    the largest double. *)
Definition infinite (n : number) : bool :=
  match n with Infinity _ => true | _ => false end.

(** A stored image reference: NULL or text. *)
Definition reference (v : value) : Prop := v = Null ∨ ∃ u, v = Str u.

(** Trimming, said without [trim]: [v] is [u] without its leading and
    trailing white space. *)
Fixpoint all_white (s : string) : bool :=
  match s with
  | EmptyString => true
  | String c r => is_white_space c && all_white r
  end.

Definition first_white (s : string) : bool :=
  match s with
  | String c _ => is_white_space c
  | EmptyString => false
  end.

Fixpoint last_white (s : string) : bool :=
  match s with
  | EmptyString => false
  | String c EmptyString => is_white_space c
  | String _ r => last_white r
  end.

Definition trims_to (u v : string) : Prop :=
  ∃ pre post, u = pre +:+ (v +:+ post)
              ∧ all_white pre = true ∧ all_white post = true
              ∧ first_white v = false ∧ last_white v = false.

(** The product a write stores under [k]: the bound values, in the order of
    the columns. *)
Definition written (req : request) (k : Z) (finalImageUrl : value) : Store.product :=
  let sql_value := Store.sql_value in
  {| Store.id := k;
     Store.name := sql_value (prop (body req !! "name"));
     Store.slug := sql_value (prop (body req !! "slug"));
     Store.description := sql_value (or_else (prop (body req !! "description")) Null);
     Store.price := sql_value (Num (parseFloat (prop (body req !! "price"))));
     Store.category := sql_value (prop (body req !! "category"));
     Store.stock := sql_value (or_else (Num (parsed_int (body req !! "stock"))) (Num (Int 0)));
     Store.imageUrl := sql_value finalImageUrl |}.

(** The values a write binds, in the order of the columns. *)
Definition bound_columns (req : request) (finalImageUrl : value) : list value :=
  [prop (body req !! "name"); prop (body req !! "slug");
   or_else (prop (body req !! "description")) Null;
   Num (parseFloat (prop (body req !! "price")));
   prop (body req !! "category");
   or_else (Num (parsed_int (body req !! "stock"))) (Num (Int 0));
   finalImageUrl].

(** The four required fields of a create are there and not empty. *)
Definition complete (req : request) : bool :=
  truthy (prop (body req !! "name")) && truthy (prop (body req !! "slug"))
  && truthy (prop (body req !! "price")) && truthy (prop (body req !! "category")).

(** After leading white space and a sign, the text does not begin with a
    decimal digit. *)
Definition no_leading_digit (s : string) : bool :=
  match snd (sign (trimStart s)) with
  | String c _ =>
      let n := nat_of_ascii c in negb ((48 <=? n)%nat && (n <=? 57)%nat)
  | EmptyString => true
  end.

(** *** Requests, result rows and a table to exercise the handlers on *)

Definition local_request : request :=
  {| protocol := "http"; host := "localhost:3001"; query := ∅; body := ∅;
     file := None; params_id := "1" |}.

Definition kitchen_request : request :=
  {| protocol := "http"; host := "localhost:3001";
     query := list_to_map [("search", "mug"); ("category", "kitchen");
                           ("maxPrice", "10.5"); ("page", "2"); ("limit", "2")];
     body := ∅; file := None; params_id := EmptyString |}.


Definition five_count : row := {[ "total" := Num (Int 5) ]}.







(** Two rows of a result set: the second has a number for image reference. *)
Definition pictured_row : row :=
  {[ "id" := Num (Int 1); "imageUrl" := Str "/uploads/a.png" ]}.
Definition numbered_row : row :=
  {[ "id" := Num (Int 2); "imageUrl" := Num (Int 7) ]}.

Definition secure_request : request :=
  {| protocol := "https"; host := "shop.example"; query := ∅; body := ∅;
     file := None; params_id := "1" |}.

Definition page_abc_request : request :=
  {| protocol := "http"; host := "localhost:3001";
     query := list_to_map [("page", "abc"); ("limit", "10")];
     body := ∅; file := None; params_id := EmptyString |}.

(** A table of two products, and requests against it. *)
Definition mug : Store.product :=
  {| Store.id := 1; Store.name := Str "Mug"; Store.slug := Str "mug-1";
     Store.description := Str "A blue mug"; Store.price := Num (Float 999 (-2));
     Store.category := Str "kitchen"; Store.stock := Num (Int 3);
     Store.imageUrl := Str "/uploads/1700000000000-42.png" |}.

Definition bowl : Store.product :=
  {| Store.id := 2; Store.name := Str "Bowl"; Store.slug := Str "bowl-1";
     Store.description := Null; Store.price := Num (Int 4);
     Store.category := Str "kitchen"; Store.stock := Num (Int 7);
     Store.imageUrl := Null |}.

Definition shop : Store.table :=
  {| Store.products := {[ 1 := mug; 2 := bowl ]}; Store.auto_increment := 3 |}.

(** The product [new_plate] creates, and the table after it. *)
Definition plate : Store.product :=
  {| Store.id := 3; Store.name := Str "Plate"; Store.slug := Str "plate-1";
     Store.description := Null; Store.price := Num (Int 6);
     Store.category := Str "kitchen"; Store.stock := Num (Int 0);
     Store.imageUrl := Str "/uploads/1700000000001-7.png" |}.

Definition shop_with_plate : Store.table :=
  {| Store.products := {[ 1 := mug; 2 := bowl; 3 := plate ]};
     Store.auto_increment := 4 |}.

(** The mug as [reprice_mug] leaves it, and the table after it. *)
Definition repriced_mug : Store.product :=
  {| Store.id := 1; Store.name := Str "Mug"; Store.slug := Str "mug-1";
     Store.description := Null; Store.price := Num (Float 125 (-1));
     Store.category := Str "kitchen"; Store.stock := Num (Int 0);
     Store.imageUrl := Str "/uploads/1700000000000-42.png" |}.

Definition shop_repriced : Store.table :=
  {| Store.products := {[ 1 := repriced_mug; 2 := bowl ]};
     Store.auto_increment := 3 |}.

(** The table without the bowl. *)
Definition shop_without_bowl : Store.table :=
  {| Store.products := {[ 1 := mug ]}; Store.auto_increment := 3 |}.

(** Requests that name the product 2, 3 and 9 and have no body. *)
Definition bowl_request : request :=
  {| protocol := "http"; host := "localhost:3001"; query := ∅; body := ∅;
     file := None; params_id := "2" |}.

Definition plate_request : request :=
  {| protocol := "http"; host := "localhost:3001"; query := ∅; body := ∅;
     file := None; params_id := "3" |}.

Definition ghost_request : request :=
  {| protocol := "http"; host := "localhost:3001"; query := ∅;
     body := list_to_map [("name", "Ghost"); ("slug", "ghost-1"); ("price", "1");
                          ("category", "attic")];
     file := None; params_id := "9" |}.

(** POST /products with an empty name. *)
Definition nameless : request :=
  {| protocol := "http"; host := "localhost:3001"; query := ∅;
     body := list_to_map [("name", EmptyString); ("slug", "cup-1"); ("price", "2");
                          ("category", "kitchen")];
     file := None; params_id := EmptyString |}.

(** PUT /products/2 with the slug of product 1. *)
Definition bowl_as_mug : request :=
  {| protocol := "http"; host := "localhost:3001"; query := ∅;
     body := list_to_map [("name", "Bowl"); ("slug", "mug-1"); ("price", "4");
                          ("category", "kitchen")];
     file := None; params_id := "2" |}.

(** PUT /products/1 with neither a file nor a URL, and no description or stock. *)
Definition reprice_mug : request :=
  {| protocol := "http"; host := "localhost:3001"; query := ∅;
     body := list_to_map [("name", "Mug"); ("slug", "mug-1"); ("price", "12.5");
                          ("category", "kitchen"); ("imageUrl", "   ")];
     file := None; params_id := "1" |}.

(** POST /products with an uploaded file and a URL. *)
Definition new_plate : request :=
  {| protocol := "http"; host := "localhost:3001"; query := ∅;
     body := list_to_map [("name", "Plate"); ("slug", "plate-1"); ("price", "6");
                          ("category", "kitchen");
                          ("imageUrl", "https://cdn.example/plate.png")];
     file := Some "1700000000001-7.png"; params_id := EmptyString |}.

(** POST /products with a URL between white space and no file. *)
Definition linked_plate : request :=
  {| protocol := "http"; host := "localhost:3001"; query := ∅;
     body := list_to_map [("name", "Plate"); ("slug", "plate-1"); ("price", "6");
                          ("category", "kitchen");
                          ("imageUrl", "  https://cdn.example/plate.png ")];
     file := None; params_id := EmptyString |}.

(** PUT /products/1 with every field, a description and a stock among them. *)
Definition restock_mug : request :=
  {| protocol := "http"; host := "localhost:3001"; query := ∅;
     body := list_to_map [("name", "Red mug"); ("slug", "mug-red");
                          ("description", "Now in red"); ("price", "12.5");
                          ("category", "table"); ("stock", "5")];
     file := None; params_id := "1" |}.

(** PUT /products/1 with a stock that begins with digits and goes on. *)
Definition recount_mug : request :=
  {| protocol := "http"; host := "localhost:3001"; query := ∅;
     body := list_to_map [("name", "Mug"); ("slug", "mug-1"); ("price", "9.99");
                          ("category", "kitchen"); ("stock", "12abc")];
     file := None; params_id := "1" |}.

(** PUT /products/1 without a price. *)
Definition unpriced_mug : request :=
  {| protocol := "http"; host := "localhost:3001"; query := ∅;
     body := list_to_map [("name", "Cup"); ("slug", "cup-1"); ("category", "table")];
     file := None; params_id := "1" |}.

(** POST /products without a price. *)
Definition priceless : request :=
  {| protocol := "http"; host := "localhost:3001"; query := ∅;
     body := list_to_map [("name", "Cup"); ("slug", "cup-1"); ("category", "kitchen")];
     file := None; params_id := EmptyString |}.

(* ===================================================================== *)
(** ** The built-ins on sample inputs *)
(* ===================================================================== *)

Example parseInt_samples :
  parseInt_string "12abc" = Int 12 ∧ parseInt_string "  -0x1F" = Int (-31)
  ∧ parseInt_string "2.5" = Int 2 ∧ parseInt_string "1e3" = Int 1
  ∧ parseInt_string "abc" = NaN ∧ parseInt Undefined = Some NaN.
Proof. repeat split. Qed.

Example parseFloat_samples :
  parseFloat (Str "9.99") = Float 999 (-2) ∧ parseFloat (Str " 10") = Int 10
  ∧ parseFloat (Str ".5e1x") = Int 5 ∧ parseFloat (Str ".") = NaN
  ∧ parseFloat (Str "-Infinity") = Infinity true ∧ parseFloat Undefined = NaN.
Proof. repeat split. Qed.

Example ToNumber_samples :
  ToNumber (Str " 20 ") = Some (Int 20) ∧ ToNumber (Str EmptyString) = Some (Int 0)
  ∧ ToNumber (Str "1e3") = Some (Int 1000) ∧ ToNumber (Str "2.5") = Some (Float 25 (-1))
  ∧ ToNumber (Str "12abc") = Some NaN ∧ ToNumber (Str "0x10") = Some (Int 16)
  ∧ ToNumber (Str "0b12") = Some NaN ∧ ToNumber (Str "1e999") = Some (Infinity false).
Proof. repeat split. Qed.

Example decimal_samples :
  decimal 1 999 = Infinity false ∧ decimal (-1) 999 = Infinity true
  ∧ decimal 17976931348623157 292 = Float 17976931348623157 292
  ∧ decimal 179769313486231580793 288 = Float 179769313486231580793 288
  ∧ decimal 179769313486231580794 288 = Infinity false
  ∧ decimal 1 (-400) = Int 0 ∧ decimal 5 (-324) = Float 5 (-324)
  ∧ decimal 9007199254740993 0 = Int 9007199254740992
  ∧ decimal 25 (-1) = Float 25 (-1) ∧ decimal 250 (-2) = Float 250 (-2)
  ∧ decimal 2500 (-2) = Int 25.
Proof. repeat split. Qed.

Example arithmetic_samples :
  sub (Int 3) (Int 1) = Some (Int 2) ∧ sub (Float 15 (-1)) (Int 1) = Some (Float 5 (-1))
  ∧ mul (Float 5 (-1)) (Int 10) = Some (Int 5)
  ∧ mul (Int 1) (Float 25 (-1)) = Some (Float 25 (-1))
  ∧ mul (Int 0) (Infinity false) = Some NaN
  ∧ mul (Int (-2)) (Infinity false) = Some (Infinity true)
  ∧ sub (Infinity false) (Infinity false) = Some NaN
  ∧ Math_ceil_div (Int 5) (Float 25 (-1)) = Some (Int 2)
  ∧ Math_ceil_div (Int 21) (Float 7 (-1)) = Some (Int 31)
  ∧ Math_ceil_div (Int 7) (Float 7 (-1)) = Some (Int 10)
  ∧ Math_ceil_div (Int 5) (Infinity false) = Some (Int 0)
  ∧ Math_ceil_div (Int 5) (Int 0) = None.
Proof. repeat split. Qed.

Example truthy_samples :
  truthy (Num (Int 0)) = false ∧ truthy (Num NaN) = false
  ∧ truthy (Num (Float 0 3)) = false ∧ truthy (Num (Float 1 (-400))) = false
  ∧ truthy (Num (Float 25 (-1))) = true ∧ truthy (Num (Infinity true)) = true
  ∧ truthy (Str EmptyString) = false ∧ truthy (Str "0") = true
  ∧ or_else (Str "a") Null = Str "a" ∧ or_else (Str EmptyString) Null = Null
  ∧ or_else Undefined (Num (Int 0)) = Num (Int 0).
Proof. repeat split. Qed.

Example parseInt_number_samples :
  parseInt (Num (Float 25 (-1))) = Some (Int 2)
  ∧ parseInt (Num (Float (-25) (-1))) = Some (Int (-2))
  ∧ parseInt (Num (Float 5 (-1))) = Some (Int 0)
  ∧ parseInt (Num (Float 5 (-7))) = Some (Int 5)
  ∧ parseInt (Num (Float 15 (-8))) = Some (Int 1)
  ∧ parseInt (Num (Float 1 21)) = Some (Int 1)
  ∧ parseInt (Num (Float 95 20)) = Some (Int 9)
  ∧ parseInt (Num (Float 1 20)) = Some (Float 100000000000000000000 0)
  ∧ parseInt (Num (Float 6999999999999999 (-15))) = Some (Int 6)
  ∧ shortest (7 # 1) = (7, 0) ∧ shortest (5 # 2) = (25, -1)
  ∧ shortest (1 # 1024) = (9765625, -10)
  ∧ parseInt (Num (Infinity false)) = Some NaN
  ∧ parseInt_string "1e999" = Int 1
  ∧ infinite (parseInt_string (String.concat EmptyString (repeat "9" 400)%list)) = true.
Proof. repeat split. Qed.

Example trim_samples :
  trim "  a b  " = "a b" ∧ trim "   " = EmptyString.
Proof. repeat split. Qed.

Example Math_ceil_div_samples :
  Math_ceil_div (Int 5) (Int 2) = Some (Int 3) ∧ Math_ceil_div (Int 6) (Int 2) = Some (Int 3)
  ∧ Math_ceil_div (Int 0) (Int 20) = Some (Int 0) ∧ Math_ceil_div (Int 0) (Int 0) = Some NaN.
Proof. repeat split. Qed.

Example like_samples :
  Sql.like "%mu%" "A MUG" = true ∧ Sql.like "%mu%" "Bowl" = false
  ∧ Sql.like "%a\_b%" "xa_b" = true ∧ Sql.like "%a\_b%" "xaxb" = false
  ∧ Sql.like "%_%" "Mug" = true.
Proof. repeat split. Qed.

(* ===================================================================== *)
(** ** Properties of the image URL helper *)
(* ===================================================================== *)

Lemma startsWith_nonempty (s p : string) :
  p ≠ EmptyString → startsWith s p = true → truthy (Str s) = true.
Proof.
  intros Hp Hs. destruct s as [|c s]; [|reflexivity].
  destruct p; [congruence | cbv in Hs; discriminate].
Qed.

Lemma uploads_not_absolute (s : string) :
  startsWith s "/uploads/" = true →
  startsWith s "http://" || startsWith s "https://" = false.
Proof.
  destruct s as [|c s]; [discriminate|].
  cbn [startsWith].
  destruct (Ascii.eqb_spec "/" c) as [<-|]; [reflexivity | discriminate].
Qed.

(** C4: [getImageUrl] returns null when no reference is stored (null,
    undefined or the empty string); returns a reference that begins with
    http:// or https:// as it is, whatever the request; and returns
    protocol + "://" + host + reference for a reference that begins with
    /uploads/.  Its result is a value computed from the reference and the
    request's protocol and host alone. *)
Theorem getImageUrl_contract (req : request) :
  getImageUrl Null req = Return Null
  ∧ getImageUrl Undefined req = Return Null
  ∧ getImageUrl (Str EmptyString) req = Return Null
  ∧ (∀ s, startsWith s "http://" = true ∨ startsWith s "https://" = true →
          getImageUrl (Str s) req = Return (Str s))
  ∧ (∀ s, startsWith s "/uploads/" = true →
          getImageUrl (Str s) req
          = Return (Str (protocol req +:+ "://" +:+ host req +:+ s)))
  ∧ (∀ v req', protocol req' = protocol req → host req' = host req →
               getImageUrl v req' = getImageUrl v req).
Proof.
  repeat split; try reflexivity.
  - intros s Hs. unfold getImageUrl.
    assert (truthy (Str s) = true) as ->
      by (destruct Hs; eapply startsWith_nonempty; eauto; discriminate).
    destruct Hs as [-> | ->]; simpl; [reflexivity|].
    by rewrite orb_true_r.
  - intros s Hs. unfold getImageUrl.
    rewrite (startsWith_nonempty s "/uploads/") by (done || discriminate).
    simpl. by rewrite uploads_not_absolute, Hs.
  - intros v req' Hp Hh. unfold getImageUrl. by rewrite Hp, Hh.
Qed.

Lemma getImageUrl_contract_witness :
  getImageUrl (Str "https://cdn.example/mug.png") local_request
  = Return (Str "https://cdn.example/mug.png")
  ∧ getImageUrl (Str "/uploads/17-42.png") local_request
    = Return (Str "http://localhost:3001/uploads/17-42.png").
Proof.
  destruct (getImageUrl_contract local_request) as (_ & _ & _ & Habs & Hup & _).
  split.
  - apply Habs. right. reflexivity.
  - apply (Hup "/uploads/17-42.png"). reflexivity.
Defined.

(** C9: a stored reference that is not empty and begins with none of
    http://, https:// and /uploads/ is returned as it is. *)
Theorem getImageUrl_fallthrough (s : string) (req : request) :
  s ≠ EmptyString →
  startsWith s "http://" = false →
  startsWith s "https://" = false →
  startsWith s "/uploads/" = false →
  getImageUrl (Str s) req = Return (Str s).
Proof.
  intros Hne H1 H2 H3. unfold getImageUrl.
  destruct s as [|c s]; [congruence|].
  change (truthy (Str (String c s))) with true. simpl negb. cbv iota.
  by rewrite H1, H2, H3.
Qed.

Lemma getImageUrl_fallthrough_witness :
  getImageUrl (Str "images/mug.png") local_request = Return (Str "images/mug.png").
Proof.
  apply getImageUrl_fallthrough; [discriminate | reflexivity ..].
Defined.

(* ===================================================================== *)
(** ** Properties of the list operation: the filters *)
(* ===================================================================== *)

Lemma filters_given (search category minPrice maxPrice : option string) :
  filters search category minPrice maxPrice
  = spec_statements (spec_predicates (given search) (given category)
                              (given minPrice) (given maxPrice)).
Proof.
  destruct search as [[|? ?]|], category as [[|? ?]|],
    minPrice as [[|? ?]|], maxPrice as [[|? ?]|]; reflexivity.
Qed.

Lemma placeholders_app (a b : string) :
  placeholders (a +:+ b) = (placeholders a + placeholders b)%nat.
Proof.
  induction a as [|c a IH]; simpl; [reflexivity|].
  rewrite IH. destruct (Ascii.eqb c "?"); lia.
Qed.

Lemma placeholders_conjunction (ps : list predicate) (head : string) :
  placeholders (conjunction head ps)
  = (placeholders head + length (ps ≫= bound))%nat.
Proof.
  revert head. induction ps as [|p ps IH]; intros head; simpl.
  - lia.
  - unfold conjunction in *. simpl. rewrite IH, placeholders_app, length_app.
    destruct p; simpl; unfold mbind; lia.
Qed.

Lemma list_statements_inv (req : request) (s : statements) :
  list_statements req = Some s →
  ∃ lim off,
    parseInt (limit_of req) = Some lim
    ∧ (offset_of (page_of req) (limit_of req) ≫= λ o, parseInt (Num o)) = Some off
    ∧ s = let f := filters (query req !! "search") (query req !! "category")
                           (query req !! "minPrice") (query req !! "maxPrice") in
          {| sql := sql f +:+ " ORDER BY createdAt DESC LIMIT ? OFFSET ?";
             countSql := countSql f;
             params := params f ++ [Num lim; Num off];
             countParams := countParams f |}.
Proof.
  unfold list_statements. intros Hs.
  destruct (offset_of _ _) as [o|]; [|discriminate].
  cbv beta iota delta [mbind option_bind] in Hs |- *.
  destruct (parseInt (limit_of req)) as [lim|]; [|discriminate].
  destruct (parseInt (Num o)) as [off|] eqn:Ho; [|discriminate].
  exists lim, off. repeat split; congruence.
Qed.

(** C1 (as amended): for every combination of search, category, minPrice
    and maxPrice, the data statement and the count statement carry the same
    predicates: one for each parameter that is supplied and not empty, in
    the order search, category, minPrice, maxPrice, none for a parameter that
    is absent or empty, each appended with AND; the bound values of the
    count statement are those of the predicates in that order, the data
    statement binds the same values followed by the limit and the offset,
    and each statement has as many placeholders as bound values. *)
Theorem filters_same_predicates (search category minPrice maxPrice : option string) :
  let ps := spec_predicates (given search) (given category)
                            (given minPrice) (given maxPrice) in
  filters search category minPrice maxPrice = spec_statements ps
  ∧ (∀ p, startsWith (clause p) " AND " = true)
  ∧ (∀ req s,
       query req !! "search" = search → query req !! "category" = category →
       query req !! "minPrice" = minPrice → query req !! "maxPrice" = maxPrice →
       list_statements req = Some s →
       sql s = conjunction "SELECT * FROM products WHERE 1=1" ps
               +:+ " ORDER BY createdAt DESC LIMIT ? OFFSET ?"
       ∧ countSql s = conjunction "SELECT COUNT(*) as total FROM products WHERE 1=1" ps
       ∧ countParams s = ps ≫= bound
       ∧ (∃ lim off, params s = countParams s ++ [Num lim; Num off])
       ∧ placeholders (sql s) = length (params s)
       ∧ placeholders (countSql s) = length (countParams s)).
Proof.
  intros ps. split; [apply filters_given|]. split; [by intros []|].
  intros req s <- <- <- <- Hs.
  apply list_statements_inv in Hs as (lim & off & _ & _ & ->).
  rewrite filters_given. fold ps. simpl.
  rewrite placeholders_app, !placeholders_conjunction, length_app. simpl.
  repeat split; eauto with lia.
Qed.

Lemma filters_same_predicates_witness :
  ∃ s, list_statements kitchen_request = Some s
       ∧ sql s = "SELECT * FROM products WHERE 1=1 AND (name LIKE ? OR description LIKE ?) AND category = ? AND price <= ? ORDER BY createdAt DESC LIMIT ? OFFSET ?"
       ∧ countSql s = "SELECT COUNT(*) as total FROM products WHERE 1=1 AND (name LIKE ? OR description LIKE ?) AND category = ? AND price <= ?"
       ∧ countParams s = [Str "%mug%"; Str "%mug%"; Str "kitchen"; Num (Float 105 (-1))]
       ∧ placeholders (sql s) = length (params s)
       ∧ placeholders (countSql s) = length (countParams s).
Proof.
  destruct (list_statements kitchen_request) as [s|] eqn:Hs;
    [|vm_compute in Hs; discriminate].
  exists s. split; [reflexivity|].
  destruct (filters_same_predicates (Some "mug") (Some "kitchen") None (Some "10.5"))
    as (_ & _ & H).
  destruct (H kitchen_request s) as (H1 & H2 & H3 & _ & H5 & H6);
    [reflexivity .. | exact Hs |].
  repeat split; [rewrite H1 | rewrite H2 | rewrite H3 | exact H5 | exact H6];
    reflexivity.
Defined.

(** C1 (as stated) fails: a parameter supplied with the empty value, as in
    [?search=], contributes no predicate. *)
Lemma empty_parameter_no_predicate :
  ¬ (∀ search category minPrice maxPrice,
       filters search category minPrice maxPrice
       = spec_statements (spec_predicates search category minPrice maxPrice)).
Proof.
  intros H. specialize (H (Some EmptyString) None None None).
  apply (f_equal params) in H. vm_compute in H. discriminate.
Qed.

(* ===================================================================== *)
(** ** Properties of the list operation: the search clause *)
(* ===================================================================== *)

Section Like.
Import Sql.

Lemma like_any (p s : string) :
  like (String "%" p) s
  = like p s || match s with
                | String _ s' => like (String "%" p) s'
                | EmptyString => false
                end.
Proof. destruct s; reflexivity. Qed.

Lemma like_literal (c : ascii) (p s : string) :
  is_pattern_char c = false →
  like (String c p) s
  = match s with
    | String d s' => same c d && like p s'
    | EmptyString => false
    end.
Proof.
  unfold is_pattern_char. intros H.
  apply orb_false_elim in H as [H H3]. apply orb_false_elim in H as [H1 H2].
  cbn [like]. by rewrite H1, H2, H3.
Qed.

Lemma like_percent (s : string) : like "%" s = true.
Proof.
  induction s as [|d s IH]; [reflexivity|].
  rewrite like_any, IH. apply orb_true_r.
Qed.

Lemma like_plain_then_any (t s : string) :
  plain t = true → like (t +:+ "%") s = starts_with_ci t s.
Proof.
  revert s. induction t as [|c t IH]; intros s Ht.
  - rewrite like_percent. by destruct s.
  - simpl in Ht. apply andb_prop in Ht as [Hc Ht].
    apply negb_true_iff in Hc.
    change (String c t +:+ "%") with (String c (t +:+ "%")).
    rewrite like_literal by done.
    destruct s as [|d s]; [reflexivity|]. simpl. by rewrite IH.
Qed.

Lemma like_contains (t s : string) :
  plain t = true → like ("%" +:+ t +:+ "%") s = contains_ci t s.
Proof.
  intros Ht. change ("%" +:+ t +:+ "%") with (String "%" (t +:+ "%")).
  induction s as [|d s IH].
  - rewrite like_any, like_plain_then_any by done. reflexivity.
  - rewrite like_any, like_plain_then_any, IH by done. reflexivity.
Qed.

End Like.

(** C8 (as amended): for every search term that is not empty, both
    statements carry the clause [(name LIKE ? OR description LIKE ?)], whose
    two placeholders are bound to the term between two percent signs; the
    text of the statements is the same for every term, so the term is never
    part of it.  When the term has none of the pattern characters [%], [_]
    and backslash, the clause selects the rows whose name or description
    contains the term, letter case apart. *)
Theorem search_bound_not_concatenated
    (search : string) (category minPrice maxPrice : option string) :
  search ≠ EmptyString →
  let s := filters (Some search) category minPrice maxPrice in
  let wrapped := Str ("%" +:+ search +:+ "%") in
  (∃ rest,
      sql s = "SELECT * FROM products WHERE 1=1 AND (name LIKE ? OR description LIKE ?)" +:+ rest
      ∧ countSql s = "SELECT COUNT(*) as total FROM products WHERE 1=1 AND (name LIKE ? OR description LIKE ?)" +:+ rest)
  ∧ (∃ more, params s = wrapped :: wrapped :: more
             ∧ countParams s = wrapped :: wrapped :: more)
  ∧ (∀ other, other ≠ EmptyString →
       sql (filters (Some other) category minPrice maxPrice) = sql s
       ∧ countSql (filters (Some other) category minPrice maxPrice) = countSql s)
  ∧ (Sql.plain search = true →
     ∀ r, search_selects search r
          = Sql.value_contains_ci search (get r "name")
            || Sql.value_contains_ci search (get r "description")).
Proof.
  intros Hne s wrapped.
  destruct search as [|c search]; [congruence|].
  repeat split.
  - subst s.
    destruct category as [[|? ?]|], minPrice as [[|? ?]|], maxPrice as [[|? ?]|];
      eexists; split; reflexivity.
  - subst s wrapped.
    destruct category as [[|? ?]|], minPrice as [[|? ?]|], maxPrice as [[|? ?]|];
      eexists; split; reflexivity.
  - destruct other as [|? ?]; [congruence|]. subst s.
    destruct category as [[|? ?]|], minPrice as [[|? ?]|], maxPrice as [[|? ?]|];
      reflexivity.
  - destruct other as [|? ?]; [congruence|]. subst s.
    destruct category as [[|? ?]|], minPrice as [[|? ?]|], maxPrice as [[|? ?]|];
      reflexivity.
  - intros Hplain r. unfold search_selects, Sql.search_clause, Sql.like_value.
    cbn [filters truthy String.eqb negb params app prop].
    unfold Sql.value_contains_ci.
    destruct (get r "name"), (get r "description");
      rewrite ?like_contains by done; reflexivity.
Qed.

Lemma search_bound_not_concatenated_witness :
  params (filters (Some "mug") (Some "kitchen") None None)
  = [Str "%mug%"; Str "%mug%"; Str "kitchen"]
  ∧ search_selects "mug" {[ "name" := Str "Blue MUG"; "description" := Null ]} = true.
Proof.
  destruct (search_bound_not_concatenated "mug" (Some "kitchen") None None)
    as (_ & _ & _ & H); [discriminate|].
  split; [reflexivity|]. rewrite H by reflexivity. reflexivity.
Defined.

(** C8 (as stated) fails: the pattern characters of a term are not escaped,
    so the term [_] selects a product whose name and description do not
    contain it. *)
Lemma search_not_substring_match :
  ¬ (∀ search r, search ≠ EmptyString →
       search_selects search r
       = Sql.value_contains_ci search (get r "name")
         || Sql.value_contains_ci search (get r "description")).
Proof.
  intros H.
  specialize (H "_" {[ "name" := Str "Mug"; "description" := Null ]}).
  vm_compute in H. discriminate H. discriminate.
Qed.

(* ===================================================================== *)
(** ** Properties of the list operation: pagination *)
(* ===================================================================== *)


Lemma parseInt_limit (req : request) :
  ∃ lim, parseInt (limit_of req) = Some lim
         ∧ (∀ text, query req !! "limit" = Some text → lim = parseInt_string text)
         ∧ (query req !! "limit" = None → lim = Int 20).
Proof.
  unfold limit_of. destruct (query req !! "limit") as [text|]; eexists;
    (split; [reflexivity|]); split; congruence.
Qed.







Section ListOperation.
Context {DB : Type} `{Pool DB}.


End ListOperation.



(* ===================================================================== *)
(** ** Properties of the write path, over any pool *)
(* ===================================================================== *)

Lemma getImageUrl_modelled (v : value) (req : request) :
  getImageUrl v req ≠ Unmodelled.
Proof.
  unfold getImageUrl. destruct (negb (truthy v)); [discriminate|].
  destruct v; try discriminate.
  repeat match goal with |- context [if ?b then _ else _] => destruct b end;
    discriminate.
Qed.

Lemma with_full_url_modelled (p : row) (req : request) :
  with_full_url p req ≠ Unmodelled.
Proof.
  unfold with_full_url.
  pose proof (getImageUrl_modelled (get p "imageUrl") req).
  destruct (getImageUrl _ _); congruence.
Qed.

Lemma columns_Some (req : request) (finalImageUrl : value) :
  columns req finalImageUrl
  = Some [prop (body req !! "name"); prop (body req !! "slug");
          or_else (prop (body req !! "description")) Null;
          Num (parseFloat (prop (body req !! "price")));
          prop (body req !! "category");
          or_else (Num (parsed_int (body req !! "stock"))) (Num (Int 0));
          finalImageUrl].
Proof. unfold columns. by destruct (body req !! "stock"). Qed.

Section WritePath.
Context {DB : Type} `{Pool DB}.

(** C7: a create request in which one of name, slug, price and category is
    missing is answered with status 400 and the message of the validation,
    and leaves the state of the pool as it was, whatever the pool: no
    statement is sent. *)
Theorem create_missing_field_rejected (req : request) (db : DB) (field : string) :
  field ∈ ["name"; "slug"; "price"; "category"] →
  body req !! field = None →
  post_products req db
  = (db, Return {| status := 400; payload := Error "Missing required fields" |}).
Proof.
  intros Hfield Hmissing. unfold post_products, try_catch.
  repeat (apply elem_of_cons in Hfield as [-> | Hfield]);
    [ .. | by apply elem_of_nil in Hfield];
    rewrite Hmissing; cbn [prop truthy negb orb];
    rewrite ?orb_true_r; reflexivity.
Qed.

(** The update path never answers 400: its responses are 200, 404 and 500. *)
Lemma put_products_status (req : request) (db : DB) :
  ∃ db' r, put_products req db = (db', Return r)
           ∧ (status r = 200 ∨ status r = 404 ∨ status r = 500).
Proof.
  unfold put_products, try_catch, bind, query_rows, query_header, model, pure, ret.
  destruct (select _ _ db) as [db1 [e|[|first existing]]]; [eauto 6 .. |].
  rewrite columns_Some.
  destruct (execute _ _ db1) as [db2 [e|h]]; [eauto 6|].
  destruct (select _ _ db2) as [db3 [e|updated]]; [eauto 6|].
  destruct (updated !! 0%nat) as [r|]; [|eauto 6].
  pose proof (with_full_url_modelled r req).
  destruct (with_full_url r req); [eauto 6 | eauto 6 | congruence].
Qed.

(** The responses of the two write paths to a duplicate slug. *)
Lemma create_duplicate_slug (req : request) (db db1 : DB) (values : list value) :
  (∀ field, field ∈ ["name"; "slug"; "price"; "category"] →
            truthy (prop (body req !! field)) = true) →
  columns req (final_image_url Null req) = Some values →
  execute INSERT values db = (db1, inl (SqlError "ER_DUP_ENTRY")) →
  post_products req db
  = (db1, Return {| status := 400; payload := Error "Product slug already exists" |}).
Proof.
  intros Hfields Hvalues Hdup.
  unfold post_products, try_catch, bind, query_header, model.
  rewrite !Hfields by (repeat constructor). cbn [negb orb].
  rewrite Hvalues, Hdup. reflexivity.
Qed.

(** C6, on the update path: when the UPDATE is rejected for a duplicate
    slug, the response is the generic 500 of every other failure, not the
    400 with the duplicate message the create path gives. *)
Theorem update_duplicate_slug_generic
    (req : request) (db db1 db2 : DB) (first : row) (rest : list row)
    (values : list value) :
  select SELECT_BY_ID [Str (params_id req)] db = (db1, inr (first :: rest)) →
  columns req (final_image_url (get first "imageUrl") req) = Some values →
  execute UPDATE (values ++ [Str (params_id req)]) db1
  = (db2, inl (SqlError "ER_DUP_ENTRY")) →
  put_products req db
  = (db2, Return {| status := 500; payload := Error "Failed to update product" |}).
Proof.
  intros Hsel Hvalues Hdup.
  unfold put_products, try_catch, bind, query_rows, query_header, model.
  rewrite Hsel, Hvalues, Hdup. reflexivity.
Qed.

End WritePath.

(* ===================================================================== *)
(** ** Properties of the write path, on the products table *)
(* ===================================================================== *)

Section OnTheTable.
Import Store.

Lemma select_hit (t : table) (v : value) (k : Z) (p : product) :
  key_of v = Some k → products t !! k = Some p →
  select SELECT_BY_ID [v] t = (t, inr [to_row p]).
Proof.
  intros Hk Hp. cbn [select table_pool]. rewrite String.eqb_refl.
  unfold select_by_id. rewrite Hk. cbn [mbind option_bind]. by rewrite Hp.
Qed.

Lemma get_imageUrl_to_row (p : product) : get (to_row p) "imageUrl" = imageUrl p.
Proof. reflexivity. Qed.

Lemma reference_final (initial : value) (req : request) :
  reference initial → reference (final_image_url initial req).
Proof.
  intros Hi. unfold final_image_url.
  destruct (file req); [right; eauto|].
  destruct (body req !! "imageUrl"); [|done].
  destruct (_ && _); [right; eauto | done].
Qed.

Lemma reference_finite (v : value) : reference v → finite (sql_value v) = true.
Proof. by intros [-> | [u ->]]. Qed.

Lemma reference_sql_value (v : value) : reference v → sql_value v = v.
Proof. by intros [-> | [u ->]]. Qed.

Lemma with_full_url_reference (p : product) (req : request) :
  reference (imageUrl p) → ∃ r, with_full_url (to_row p) req = Return r.
Proof.
  unfold with_full_url. rewrite get_imageUrl_to_row.
  intros [-> | [u ->]]; [eauto|].
  unfold getImageUrl.
  repeat match goal with |- context [if ?b then _ else _] => destruct b end; eauto.
Qed.

Lemma decimal_Float (m e m' e' : Z) :
  decimal m e = Float m' e' →
  truthy (Num (Float m' e')) = true ∧ finite (Num (Float m' e')) = true.
Proof.
  unfold decimal.
  destruct (nearest (scaled m e)) as [[M u]|] eqn:Hn; [|discriminate].
  destruct (_ && _) eqn:Hc; [discriminate|]. intros [= <- <-].
  unfold truthy, finite, round. rewrite Hn. split; [|reflexivity].
  apply negb_true_iff, Z.eqb_neq. intros Hz.
  assert (M = 0) as ->.
  { unfold dyadic in Hz. destruct (0 <=? u) eqn:Hu; cbn [Qnum inject_Z] in Hz; [|done].
    apply Z.leb_le in Hu. apply Z.mul_eq_0 in Hz as [Hz|Hz]; [done|].
    pose proof (Z.pow_pos_nonneg 2 u). lia. }
  rewrite Z.mul_0_l, Zmod_0_l, Zdiv_0_l, orb_true_r in Hc.
  by destruct (0 <=? u).
Qed.

Lemma parseInt_string_cases (s : string) :
  parseInt_string s = NaN ∨ ∃ m, parseInt_string s = decimal m 0.
Proof.
  unfold parseInt_string.
  destruct (sign (trimStart s)) as [negative s2].
  match goal with
  | |- context [let '(radix, s3) := ?x in _] => destruct x as [radix s3]
  end.
  destruct (digits radix s3 0 0) as [[[v l]|] rest]; eauto.
Qed.

Lemma parsed_int_Float (o : option string) (m e : Z) :
  parsed_int o = Float m e →
  truthy (Num (Float m e)) = true ∧ finite (Num (Float m e)) = true.
Proof.
  destruct o as [s|]; [|discriminate]. unfold parsed_int.
  destruct (parseInt_string_cases s) as [-> | [m' ->]]; [discriminate|].
  apply decimal_Float.
Qed.

(** [parseInt(stock) || 0] *)
Lemma stock_stored (o : option string) :
  or_else (Num (parsed_int o)) (Num (Int 0))
  = match parsed_int o with
    | NaN | Int 0 => Num (Int 0)
    | n => Num n
    end.
Proof.
  unfold or_else. destruct (parsed_int o) as [[|z|z]|m e|b|] eqn:Hn; try reflexivity.
  by rewrite (proj1 (parsed_int_Float o m e Hn)).
Qed.

Lemma stock_finite (o : option string) :
  infinite (parsed_int o) = false →
  finite (or_else (Num (parsed_int o)) (Num (Int 0))) = true.
Proof.
  rewrite stock_stored.
  destruct (parsed_int o) as [[|z|z]|m e|b|] eqn:Hn; try done.
  intros _. apply (parsed_int_Float o m e Hn).
Qed.

Lemma columns_finite (req : request) (i v : value) :
  finite (Num (parseFloat (prop (body req !! "price")))) = true →
  infinite (parsed_int (body req !! "stock")) = false →
  finite i = true → finite v = true →
  forallb finite
    ([prop (body req !! "name"); prop (body req !! "slug");
      or_else (prop (body req !! "description")) Null;
      Num (parseFloat (prop (body req !! "price")));
      prop (body req !! "category");
      or_else (Num (parsed_int (body req !! "stock"))) (Num (Int 0)); i] ++ [v]) = true.
Proof.
  intros Hp Hs Hi Hv. cbn [app forallb].
  rewrite Hp, Hi, Hv, (stock_finite _ Hs).
  destruct (body req !! "name"), (body req !! "slug"), (body req !! "category"),
    (body req !! "description") as [[|? ?]|]; reflexivity.
Qed.

End OnTheTable.

Section Writes.
Import Store.

Lemma UPDATE_not_INSERT : String.eqb UPDATE INSERT = false.
Proof. reflexivity. Qed.

Lemma put_products_written (t : table) (req : request) (k : Z) (old : product) :
  key_of (Str (params_id req)) = Some k →
  products t !! k = Some old → id old = k → reference (imageUrl old) →
  finite (Num (parseFloat (prop (body req !! "price")))) = true →
  infinite (parsed_int (body req !! "stock")) = false →
  taken (sql_value (prop (body req !! "slug"))) (Some k) t = false →
  ∃ r, put_products req t
       = ({| products :=
               <[k := written req k (final_image_url (imageUrl old) req)]> (products t);
             auto_increment := auto_increment t |},
          Return {| status := 200; payload := Product r |}).
Proof.
  intros Hk Hold Hid Href Hprice Hstock Hslug.
  pose proof (reference_final _ req Href) as Hfinal.
  destruct (with_full_url_reference
              (written req k (final_image_url (imageUrl old) req)) req) as [r Hr].
  { cbn [imageUrl written]. by rewrite reference_sql_value. }
  exists r.
  unfold put_products, try_catch, bind, query_rows, query_header, model, pure, ret.
  rewrite (select_hit t _ k old Hk Hold), get_imageUrl_to_row, columns_Some.
  cbn [execute table_pool]. rewrite UPDATE_not_INSERT, String.eqb_refl.
  unfold update_product.
  rewrite columns_finite;
    [| done | done | rewrite <- (reference_sql_value _ Hfinal); by apply reference_finite
     | done].
  cbn [app fmap list_fmap negb].
  change (sql_value (Str (params_id req))) with (Str (params_id req)). rewrite Hk.
  cbn [mbind option_bind]. rewrite Hold, Hid, Hslug.
  erewrite select_hit; [| exact Hk | apply lookup_insert_eq].
  cbn [lookup list_lookup]. unfold written in Hr |- *. by rewrite Hr.
Qed.

Lemma post_products_written (t : table) (req : request) :
  (∀ field, field ∈ ["name"; "slug"; "price"; "category"] →
            truthy (prop (body req !! field)) = true) →
  finite (Num (parseFloat (prop (body req !! "price")))) = true →
  infinite (parsed_int (body req !! "stock")) = false →
  taken (sql_value (prop (body req !! "slug"))) None t = false →
  ∃ r, post_products req t
       = ({| products :=
               <[auto_increment t :=
                   written req (auto_increment t) (final_image_url Null req)]> (products t);
             auto_increment := auto_increment t + 1 |},
          Return {| status := 201; payload := Product r |}).
Proof.
  intros Hfields Hprice Hstock Hslug.
  assert (reference (final_image_url Null req)) as Hfinal
    by (apply reference_final; by left).
  destruct (with_full_url_reference
              (written req (auto_increment t) (final_image_url Null req)) req) as [r Hr].
  { cbn [imageUrl written]. by rewrite reference_sql_value. }
  exists r.
  unfold post_products, try_catch, bind, query_rows, query_header, model, pure, ret.
  rewrite !Hfields by (repeat constructor). cbn [negb orb].
  rewrite columns_Some.
  cbn [execute table_pool]. rewrite String.eqb_refl.
  unfold insert_product.
  pose proof (columns_finite req (final_image_url Null req) Null Hprice Hstock) as Hfin.
  rewrite forallb_app in Hfin. apply andb_prop in Hfin as [-> _];
    [| rewrite <- (reference_sql_value _ Hfinal); by apply reference_finite | done].
  cbn [fmap list_fmap negb]. rewrite Hslug. cbn [insertId].
  erewrite select_hit; [| reflexivity | apply lookup_insert_eq].
  cbn [lookup list_lookup]. unfold written in Hr |- *. by rewrite Hr.
Qed.

Lemma trim_nonempty (u : string) :
  trim u ≠ EmptyString → truthy (Str u) && truthy (Str (trim u)) = true.
Proof.
  intros Hu. destruct u as [|c u]; [done|].
  cbn [truthy String.eqb negb andb]. by destruct (trim (String c u)).
Qed.

Lemma trim_empty (u : string) :
  trim u = EmptyString → truthy (Str u) && truthy (Str (trim u)) = false.
Proof. intros ->. apply andb_false_r. Qed.

Lemma final_image_url_cases (initial : value) (req : request) :
  (∀ filename, file req = Some filename →
     final_image_url initial req = Str ("/uploads/" +:+ filename))
  ∧ (∀ u, file req = None → body req !! "imageUrl" = Some u →
          trim u ≠ EmptyString → final_image_url initial req = Str (trim u))
  ∧ (file req = None →
     body req !! "imageUrl" = None
     ∨ (∃ u, body req !! "imageUrl" = Some u ∧ trim u = EmptyString) →
     final_image_url initial req = initial).
Proof.
  unfold final_image_url. repeat split.
  - by intros filename ->.
  - intros u -> -> Hu. by rewrite trim_nonempty.
  - intros -> [-> | (u & -> & Hu)]; [done|]. by rewrite trim_empty.
Qed.

Lemma no_leading_digit_NaN (s : string) :
  no_leading_digit s = true → parseInt_string s = NaN.
Proof.
  unfold no_leading_digit, parseInt_string.
  destruct (sign (trimStart s)) as [negative [|c r]]; [reflexivity|].
  cbn [snd]. intros Hc.
  destruct c as [[] [] [] [] [] [] [] []];
    first [discriminate Hc | reflexivity].
Qed.

(** [trim] removes the leading and the trailing white space, and only that. *)
Lemma trimStart_white (pre x : string) :
  all_white pre = true → trimStart (pre +:+ x) = trimStart x.
Proof.
  induction pre as [|c pre IH]; [done|].
  cbn [all_white]. intros [Hc Hpre]%andb_prop.
  change (String c pre +:+ x) with (String c (pre +:+ x)).
  cbn [trimStart]. rewrite Hc. auto.
Qed.

Lemma trimStart_all_white (s : string) : all_white s = true → trimStart s = EmptyString.
Proof.
  induction s as [|c s IH]; [done|].
  cbn [all_white trimStart]. intros [-> Hs]%andb_prop. auto.
Qed.

Lemma trimEnd_all_white (s : string) : all_white s = true → trimEnd s = EmptyString.
Proof.
  induction s as [|c s IH]; [done|].
  cbn [all_white trimEnd]. intros [-> Hs]%andb_prop. by rewrite IH.
Qed.

Lemma trimEnd_white (s post : string) :
  all_white post = true → trimEnd (s +:+ post) = trimEnd s.
Proof.
  intros Hpost. induction s as [|c s IH].
  - change (EmptyString +:+ post) with post. by apply trimEnd_all_white.
  - change (String c s +:+ post) with (String c (s +:+ post)).
    cbn [trimEnd]. by rewrite IH.
Qed.

Lemma trimEnd_last (v : string) : last_white v = false → trimEnd v = v.
Proof.
  induction v as [|c r IH]; [done|]. destruct r as [|c' r'].
  - cbn [last_white trimEnd]. by intros ->.
  - intros Hl. change (last_white (String c' r') = false) in Hl.
    change (trimEnd (String c (String c' r')))
      with (match trimEnd (String c' r') with
            | EmptyString => if is_white_space c then EmptyString else String c EmptyString
            | String a t => String c (String a t)
            end).
    by rewrite (IH Hl).
Qed.

Lemma trims_to_trim (u v : string) : trims_to u v → trim u = v.
Proof.
  intros (pre & post & -> & Hpre & Hpost & Hf & Hl). unfold trim.
  rewrite trimStart_white by done.
  destruct v as [|c v'].
  - change (EmptyString +:+ post) with post. by rewrite trimStart_all_white.
  - change (String c v' +:+ post) with (String c (v' +:+ post)).
    cbn [trimStart]. cbn [first_white] in Hf. rewrite Hf.
    change (String c (v' +:+ post)) with (String c v' +:+ post).
    rewrite trimEnd_white by done. by apply trimEnd_last.
Qed.

Lemma trimStart_split (s : string) :
  ∃ pre, s = pre +:+ trimStart s ∧ all_white pre = true
         ∧ first_white (trimStart s) = false.
Proof.
  induction s as [|c s (pre & Hs & Hpre & Hf)]; [by exists EmptyString|].
  cbn [trimStart]. destruct (is_white_space c) eqn:Hc.
  - exists (String c pre). split; [|split; [|done]].
    + change (String c s = String c (pre +:+ trimStart s)). by rewrite <- Hs.
    + cbn [all_white]. by rewrite Hc.
  - exists EmptyString. by rewrite <- Hc.
Qed.

Lemma trimEnd_split (s : string) :
  ∃ post, s = trimEnd s +:+ post ∧ all_white post = true
          ∧ last_white (trimEnd s) = false.
Proof.
  induction s as [|c s (post & Hs & Hpost & Hl)]; [by exists EmptyString|].
  cbn [trimEnd]. destruct (trimEnd s) as [|c' t] eqn:Ht.
  - change (EmptyString +:+ post) with post in Hs. subst post.
    destruct (is_white_space c) eqn:Hc.
    + exists (String c s). split; [done|]. split; [|done].
      cbn [all_white]. by rewrite Hc.
    + exists s. by repeat split.
  - exists post. split; [|by split].
    change (String c s = String c (String c' t +:+ post)). by rewrite <- Hs.
Qed.

Lemma first_white_trimEnd (x : string) :
  first_white x = false → first_white (trimEnd x) = false.
Proof.
  destruct x as [|c r]; [done|]. cbn [first_white trimEnd]. intros Hc.
  destruct (trimEnd r); [by rewrite Hc | done].
Qed.

Lemma trim_trims_to (u : string) : trims_to u (trim u).
Proof.
  destruct (trimStart_split u) as (pre & Hu & Hpre & Hf).
  destruct (trimEnd_split (trimStart u)) as (post & Ht & Hpost & Hl).
  exists pre, post. unfold trim. rewrite <- Ht.
  repeat split; [exact Hu | exact Hpre | exact Hpost | | exact Hl].
  by apply first_white_trimEnd.
Qed.

End Writes.

Lemma create_missing_field_rejected_witness :
  post_products priceless {| Script.sent := [] |}
  = ({| Script.sent := [] |},
     Return {| status := 400; payload := Error "Missing required fields" |}).
Proof.
  apply (create_missing_field_rejected priceless _ "price");
    [repeat constructor | reflexivity].
Defined.

Lemma update_duplicate_slug_generic_witness :
  put_products bowl_as_mug shop
  = (shop, Return {| status := 500; payload := Error "Failed to update product" |})
  ∧ post_products bowl_as_mug shop
    = (shop, Return {| status := 400; payload := Error "Product slug already exists" |}).
Proof.
  split.
  - eapply (update_duplicate_slug_generic bowl_as_mug shop shop shop (Store.to_row bowl) []);
      [reflexivity | apply columns_Some | vm_compute; reflexivity].
  - vm_compute. reflexivity.
Defined.

Section WriteClaims.
Import Store.

(** C5: the image reference a create or an update stores.  An uploaded file
    comes first and gives the path /uploads/ + its stored name; otherwise a
    URL supplied in the body is used without its leading and trailing white
    space, unless nothing else is in it; otherwise the reference is the one
    the product had (update) or null (create).  Every supplied URL trims to
    one text, the one [trim] returns.  On the table, a create that passes
    the validation and binds a finite price and stock stores that reference
    in the new product, and such an update stores it in the updated one, so
    an update with neither a file nor a URL leaves the stored reference as
    it was. *)
Theorem image_reference_priority (t : table) (req : request) :
  (∀ initial,
     (∀ filename, file req = Some filename →
        final_image_url initial req = Str ("/uploads/" +:+ filename))
     ∧ (∀ u v, file req = None → body req !! "imageUrl" = Some u →
               trims_to u v → v ≠ EmptyString →
               final_image_url initial req = Str v)
     ∧ (file req = None →
        body req !! "imageUrl" = None
        ∨ (∃ u, body req !! "imageUrl" = Some u ∧ trims_to u EmptyString) →
        final_image_url initial req = initial))
  ∧ (∀ u, trims_to u (trim u) ∧ ∀ v, trims_to u v → v = trim u)
  ∧ ((∀ field, field ∈ ["name"; "slug"; "price"; "category"] →
               truthy (prop (body req !! field)) = true) →
     finite (Num (parseFloat (prop (body req !! "price")))) = true →
     infinite (parsed_int (body req !! "stock")) = false →
     taken (sql_value (prop (body req !! "slug"))) None t = false →
     ∃ t' r, post_products req t = (t', Return r) ∧ status r = 201
             ∧ imageUrl <$> products t' !! auto_increment t
               = Some (final_image_url Null req))
  ∧ (∀ k old,
       key_of (Str (params_id req)) = Some k →
       products t !! k = Some old → id old = k → reference (imageUrl old) →
       finite (Num (parseFloat (prop (body req !! "price")))) = true →
       infinite (parsed_int (body req !! "stock")) = false →
       taken (sql_value (prop (body req !! "slug"))) (Some k) t = false →
       ∃ t' r, put_products req t = (t', Return r) ∧ status r = 200
               ∧ imageUrl <$> products t' !! k
                 = Some (final_image_url (imageUrl old) req)
               ∧ (file req = None →
                  body req !! "imageUrl" = None
                  ∨ (∃ u, body req !! "imageUrl" = Some u ∧ trims_to u EmptyString) →
                  imageUrl <$> products t' !! k = Some (imageUrl old))).
Proof.
  assert (∀ initial,
            file req = None →
            body req !! "imageUrl" = None
            ∨ (∃ u, body req !! "imageUrl" = Some u ∧ trims_to u EmptyString) →
            final_image_url initial req = initial) as Hkeep.
  { intros initial Hfile Hurl. apply final_image_url_cases; [done|].
    destruct Hurl as [? | (u & ? & ?%trims_to_trim)]; eauto. }
  split; [|split; [|split]].
  - intros initial. split; [apply final_image_url_cases|]. split; [|apply Hkeep].
    intros u v Hfile Hurl <-%trims_to_trim Hv.
    by apply final_image_url_cases.
  - intros u. split; [apply trim_trims_to|]. intros v Hv. symmetry. by apply trims_to_trim.
  - intros Hfields Hprice Hstock Hslug.
    destruct (post_products_written t req Hfields Hprice Hstock Hslug) as [r Hrun].
    eexists _, _. split; [exact Hrun|]. split; [reflexivity|].
    cbn [products]. rewrite lookup_insert_eq. cbn [fmap option_fmap option_map imageUrl written].
    f_equal. apply reference_sql_value, reference_final. by left.
  - intros k old Hk Hold Hid Href Hprice Hstock Hslug.
    destruct (put_products_written t req k old Hk Hold Hid Href Hprice Hstock Hslug)
      as [r Hrun].
    eexists _, _. split; [exact Hrun|]. split; [reflexivity|].
    cbn [products]. rewrite lookup_insert_eq. cbn [fmap option_fmap option_map imageUrl written].
    rewrite reference_sql_value by by apply reference_final.
    split; [reflexivity|]. intros Hfile Hurl.
    f_equal. by apply Hkeep.
Qed.

(** C10 (as amended): the update path validates nothing.  Over any pool its
    response is a 200, a 404 or a 500, never a 400.  On the table, an update
    that is carried out (the product is there, the slug is free, the price
    and the stock are finite numbers) stores the name, slug, description,
    price, category and stock read from the body in place of the former
    ones: the description is the one of the body, and null when the body has
    none or an empty one; the stock is the integer [parseInt] reads at the
    start of the field, and 0 when there is no field, when it does not begin
    with a number, or when that integer is 0. *)
Theorem update_overwrites_without_validation (t : table) (req : request) :
  (∀ (DB : Type) (pool : Pool DB) (db : DB),
     ∃ db' r, put_products req db = (db', Return r)
              ∧ (status r = 200 ∨ status r = 404 ∨ status r = 500)
              ∧ status r ≠ 400)
  ∧ (∀ k old,
       key_of (Str (params_id req)) = Some k →
       products t !! k = Some old → id old = k → reference (imageUrl old) →
       finite (Num (parseFloat (prop (body req !! "price")))) = true →
       infinite (parsed_int (body req !! "stock")) = false →
       taken (sql_value (prop (body req !! "slug"))) (Some k) t = false →
       ∃ t' r new,
         put_products req t = (t', Return r) ∧ status r = 200
         ∧ products t' !! k = Some new
         ∧ name new = sql_value (prop (body req !! "name"))
         ∧ slug new = sql_value (prop (body req !! "slug"))
         ∧ description new
           = match body req !! "description" with
             | Some (String c s) => Str (String c s)
             | _ => Null
             end
         ∧ price new = Num (parseFloat (prop (body req !! "price")))
         ∧ category new = sql_value (prop (body req !! "category"))
         ∧ stock new
           = match parsed_int (body req !! "stock") with
             | NaN | Int 0 => Num (Int 0)
             | n => Num n
             end
         ∧ (body req !! "stock" = None
            ∨ (∃ s, body req !! "stock" = Some s ∧ no_leading_digit s = true) →
            stock new = Num (Int 0))).
Proof.
  split.
  - intros DB pool db.
    destruct (put_products_status req db) as (db' & r & Hrun & Hstatus).
    exists db', r. split; [exact Hrun|]. split; [exact Hstatus|].
    destruct Hstatus as [-> | [-> | ->]]; discriminate.
  - intros k old Hk Hold Hid Href Hprice Hstock Hslug.
    destruct (put_products_written t req k old Hk Hold Hid Href Hprice Hstock Hslug)
      as [r Hrun].
    eexists _, _, _. split; [exact Hrun|]. split; [reflexivity|].
    cbn [products]. split; [apply lookup_insert_eq|].
    cbn [name slug description price category stock written].
    rewrite stock_stored.
    repeat split.
    + by destruct (body req !! "description") as [[|c s]|].
    + by destruct (parsed_int (body req !! "stock")) as [[| |]| | |].
    + intros [-> | (s & -> & Hs)]; [reflexivity|].
      cbn [parsed_int]. by rewrite no_leading_digit_NaN.
Qed.

End WriteClaims.

Lemma image_reference_priority_witness :
  (∃ t' r, post_products new_plate shop = (t', Return r) ∧ status r = 201
           ∧ Store.imageUrl <$> Store.products t' !! 3
             = Some (Str "/uploads/1700000000001-7.png"))
  ∧ (∃ t' r, post_products linked_plate shop = (t', Return r) ∧ status r = 201
             ∧ Store.imageUrl <$> Store.products t' !! 3
               = Some (Str "https://cdn.example/plate.png"))
  ∧ (∃ t' r, put_products reprice_mug shop = (t', Return r) ∧ status r = 200
             ∧ Store.imageUrl <$> Store.products t' !! 1
               = Some (Str "/uploads/1700000000000-42.png")).
Proof.
  split; [|split].
  - destruct (image_reference_priority shop new_plate) as (Hfinal & _ & Hcreate & _).
    destruct Hcreate as (t' & r & Hrun & Hstatus & Hstored).
    + intros field Hfield.
      repeat (apply elem_of_cons in Hfield as [-> | Hfield]);
        [reflexivity .. | by apply elem_of_nil in Hfield].
    + reflexivity.
    + reflexivity.
    + reflexivity.
    + exists t', r. repeat split; [exact Hrun | exact Hstatus |].
      rewrite (proj1 (Hfinal Null) "1700000000001-7.png" eq_refl) in Hstored.
      exact Hstored.
  - destruct (image_reference_priority shop linked_plate) as (Hfinal & _ & Hcreate & _).
    destruct Hcreate as (t' & r & Hrun & Hstatus & Hstored).
    + intros field Hfield.
      repeat (apply elem_of_cons in Hfield as [-> | Hfield]);
        [reflexivity .. | by apply elem_of_nil in Hfield].
    + reflexivity.
    + reflexivity.
    + reflexivity.
    + exists t', r. repeat split; [exact Hrun | exact Hstatus |].
      rewrite (proj1 (proj2 (Hfinal Null)) "  https://cdn.example/plate.png "
                 "https://cdn.example/plate.png") in Hstored;
        [exact Hstored | reflexivity | reflexivity | | discriminate].
      exists "  ", " ". repeat split; reflexivity.
  - destruct (image_reference_priority shop reprice_mug) as (_ & _ & _ & Hupdate).
    destruct (Hupdate 1 mug) as (t' & r & Hrun & Hstatus & _ & Hkept);
      [reflexivity | reflexivity | reflexivity | right; eexists; reflexivity
      | reflexivity | reflexivity | reflexivity |].
    exists t', r. repeat split; [exact Hrun | exact Hstatus |].
    apply Hkept; [reflexivity|]. right. exists "   ". split; [reflexivity|].
    exists "   ", EmptyString. repeat split; reflexivity.
Defined.

Lemma update_overwrites_without_validation_witness :
  (∃ t' r new,
     put_products restock_mug shop = (t', Return r) ∧ status r = 200
     ∧ Store.products t' !! 1 = Some new
     ∧ Store.name new = Str "Red mug" ∧ Store.slug new = Str "mug-red"
     ∧ Store.description new = Str "Now in red"
     ∧ Store.price new = Num (Float 125 (-1))
     ∧ Store.category new = Str "table"
     ∧ Store.stock new = Num (Int 5))
  ∧ (∃ t' r new,
       put_products reprice_mug shop = (t', Return r) ∧ status r = 200
       ∧ Store.products t' !! 1 = Some new
       ∧ Store.description new = Null
       ∧ Store.stock new = Num (Int 0)
       ∧ Store.price new = Num (Float 125 (-1))).
Proof.
  split.
  - destruct (update_overwrites_without_validation shop restock_mug) as (_ & Hupdate).
    destruct (Hupdate 1 mug)
      as (t' & r & new & Hrun & Hstatus & Hnew & Hname & Hslug & Hdesc & Hprice & Hcat
          & Hstock & _);
      [reflexivity | reflexivity | reflexivity | right; eexists; reflexivity
      | reflexivity | reflexivity | reflexivity |].
    exists t', r, new.
    repeat split;
      [exact Hrun | exact Hstatus | exact Hnew | exact Hname | exact Hslug | exact Hdesc
      | exact Hprice | exact Hcat | exact Hstock].
  - destruct (update_overwrites_without_validation shop reprice_mug) as (_ & Hupdate).
    destruct (Hupdate 1 mug)
      as (t' & r & new & Hrun & Hstatus & Hnew & _ & _ & Hdesc & Hprice & _ & _ & Hstock);
      [reflexivity | reflexivity | reflexivity | right; eexists; reflexivity
      | reflexivity | reflexivity | reflexivity |].
    exists t', r, new.
    repeat split; [exact Hrun | exact Hstatus | exact Hnew | exact Hdesc | | exact Hprice].
    apply Hstock. left. reflexivity.
Defined.

(** C10, the claim as it stands, fails twice.  A stock that is not a number
    but begins with digits is stored as those digits, not as 0:
    PUT /products/1 with the stock 12abc answers 200 and leaves the stock
    12.  And not each update overwrites the stored fields: without a price
    the UPDATE binds NaN, the statement is rejected, the answer is 500 and
    the product is as it was. *)
Lemma stock_leading_digits_stored :
  (∃ t' r new,
     put_products recount_mug shop = (t', Return r) ∧ status r = 200
     ∧ Store.products t' !! 1 = Some new
     ∧ body recount_mug !! "stock" = Some "12abc"
     ∧ StringToNumber "12abc" = Some NaN
     ∧ Store.stock new = Num (Int 12)
     ∧ Store.stock new ≠ Num (Int 0))
  ∧ put_products unpriced_mug shop
    = (shop, Return {| status := 500; payload := Error "Failed to update product" |}).
Proof.
  split; [|vm_compute; reflexivity].
  eexists _, _, _.
  split; [vm_compute; reflexivity|].
  split; [reflexivity|]. split; [vm_compute; reflexivity|].
  repeat split. discriminate.
Qed.

(* ===================================================================== *)
(** ** Properties of the upload configuration *)
(* ===================================================================== *)

Section Uploads.
Import Upload.

Lemma chars_app (a b : string) :
  list_ascii_of_string (a +:+ b) = list_ascii_of_string a ++ list_ascii_of_string b.
Proof. induction a as [|c a IH]; simpl; [reflexivity|]. by rewrite IH. Qed.

Lemma chars_of_list (l : list ascii) :
  list_ascii_of_string (string_of_list_ascii l) = l.
Proof. apply list_ascii_of_string_of_list_ascii. Qed.

Lemma includes_char (s : string) (c : ascii) :
  includes s (String c EmptyString) = existsb (Ascii.eqb c) (list_ascii_of_string s).
Proof.
  induction s as [|d s IH]; [reflexivity|].
  cbn [includes startsWith list_ascii_of_string existsb].
  rewrite IH. replace (startsWith s EmptyString) with true by by destruct s.
  by rewrite andb_true_r.
Qed.

Lemma existsb_rev {A} (f : A → bool) (l : list A) :
  existsb f (rev l) = existsb f l.
Proof.
  induction l as [|a l IH]; [reflexivity|].
  cbn [rev existsb]. rewrite existsb_app, IH. cbn [existsb].
  rewrite orb_false_r. apply orb_comm.
Qed.

Lemma last_portion_no_slash (l : list ascii) :
  existsb (Ascii.eqb "/") (last_portion l) = false.
Proof.
  induction l as [|c l IH]; [reflexivity|]. cbn [last_portion].
  destruct (Ascii.eqb_spec c "/") as [->|Hc]; [reflexivity|].
  cbn [existsb]. rewrite IH, orb_false_r. apply Ascii.eqb_neq. congruence.
Qed.

Lemma split_dot_app (l a b : list ascii) :
  split_dot l = Some (a, b) →
  l = a ++ "."%char :: b ∧ existsb (Ascii.eqb ".") a = false.
Proof.
  revert a b. induction l as [|c l IH]; intros a b; [discriminate|].
  cbn [split_dot].
  destruct (Ascii.eqb_spec c ".") as [->|Hc].
  - intros [= <- <-]. by split.
  - destruct (split_dot l) as [[a' b']|]; [|discriminate].
    intros [= <- <-]. destruct (IH a' b' eq_refl) as [-> Ha].
    split; [reflexivity|]. cbn [existsb]. rewrite Ha, orb_false_r.
    apply Ascii.eqb_neq. congruence.
Qed.

Lemma split_dot_None (l : list ascii) :
  existsb (Ascii.eqb ".") l = false → split_dot l = None.
Proof.
  induction l as [|c l IH]; [reflexivity|]. cbn [existsb split_dot].
  rewrite (Ascii.eqb_sym "." c).
  destruct (Ascii.eqb c "."); [discriminate|]. cbn [orb]. by intros ->%IH.
Qed.

(** The extension is empty or a dot followed by characters of the last
    portion that are neither dots nor separators. *)
Lemma extname_cases (path : string) :
  extname path = EmptyString
  ∨ ∃ after, extname path = string_of_list_ascii ("."%char :: after)
             ∧ existsb (Ascii.eqb "/") after = false
             ∧ existsb (Ascii.eqb ".") after = false.
Proof.
  unfold extname.
  set (portion := last_portion _).
  pose proof (last_portion_no_slash
                (drop_slashes (rev (list_ascii_of_string path)))) as Hslash.
  fold portion in Hslash.
  destruct (split_dot portion) as [[a b]|] eqn:Hsplit; [|by left].
  apply split_dot_app in Hsplit as [Hp Ha].
  assert (existsb (Ascii.eqb "/") (rev a) = false
          ∧ existsb (Ascii.eqb ".") (rev a) = false) as [H1 H2].
  { rewrite Hp, existsb_app in Hslash. apply orb_false_elim in Hslash as [Hs _].
    split; rewrite existsb_rev; assumption. }
  destruct a as [|a1 a], b as [|b1 b];
    [by left | | by left | right; by exists (rev (a1 :: a))].
  destruct b1 as [[] [] [] [] [] [] [] []], b;
    first [by left | right; by exists []].
Qed.

Lemma existsb_drop_slashes (f : ascii → bool) (l : list ascii) :
  existsb f l = false → existsb f (drop_slashes l) = false.
Proof.
  induction l as [|c l IH]; [done|]. cbn [drop_slashes existsb].
  intros [Hc Hl]%orb_false_elim.
  destruct (Ascii.eqb c "/"); [by apply IH|].
  cbn [existsb]. by rewrite Hc, Hl.
Qed.

Lemma existsb_last_portion (f : ascii → bool) (l : list ascii) :
  existsb f l = false → existsb f (last_portion l) = false.
Proof.
  induction l as [|c l IH]; [done|]. cbn [last_portion existsb].
  intros [Hc Hl]%orb_false_elim.
  destruct (Ascii.eqb c "/"); [done|].
  cbn [existsb]. by rewrite Hc, IH.
Qed.

Lemma no_slash_portion (l : list ascii) :
  existsb (Ascii.eqb "/") l = false →
  last_portion (drop_slashes l) = l.
Proof.
  intros Hl.
  assert (drop_slashes l = l) as ->.
  { destruct l as [|c l]; [done|]. cbn [drop_slashes existsb] in *.
    apply orb_false_elim in Hl as [Hc _].
    by rewrite Ascii.eqb_sym, Hc. }
  induction l as [|c l IH]; [done|]. cbn [last_portion existsb] in *.
  apply orb_false_elim in Hl as [Hc Hl].
  rewrite Ascii.eqb_sym, Hc. by rewrite IH.
Qed.

Lemma split_dot_found (a b : list ascii) :
  existsb (Ascii.eqb ".") a = false →
  split_dot (a ++ "."%char :: b) = Some (a, b).
Proof.
  induction a as [|c a IH]; [done|]. cbn [existsb app split_dot].
  intros [Hc Ha]%orb_false_elim.
  rewrite Ascii.eqb_sym, Hc. by rewrite IH.
Qed.

Lemma extname_no_dot (s : string) :
  existsb (Ascii.eqb ".") (list_ascii_of_string s) = false →
  extname s = EmptyString.
Proof.
  intros Hs. unfold extname. rewrite split_dot_None; [done|].
  apply existsb_last_portion, existsb_drop_slashes. by rewrite existsb_rev.
Qed.

Lemma extname_append (p after : list ascii) :
  p ≠ [] →
  existsb (Ascii.eqb "/") p = false → existsb (Ascii.eqb ".") p = false →
  existsb (Ascii.eqb "/") after = false → existsb (Ascii.eqb ".") after = false →
  extname (string_of_list_ascii (p ++ "."%char :: after))
  = string_of_list_ascii ("."%char :: after).
Proof.
  intros Hp Hps Hpd Has Had. unfold extname.
  rewrite chars_of_list, rev_app_distr. cbn [rev]. rewrite <- app_assoc. cbn [app].
  rewrite no_slash_portion.
  2:{ rewrite existsb_app, existsb_rev. cbn [existsb].
      by rewrite Has, existsb_rev, Hps. }
  rewrite split_dot_found by by rewrite existsb_rev.
  rewrite <- (existsb_rev _ p) in Hpd.
  assert (rev p ≠ []) as Hrev.
  { intros Hnil. apply Hp. by rewrite <- (rev_involutive p), Hnil. }
  destruct (rev p) as [|b1 b]; [done|].
  cbn [existsb] in Hpd. apply orb_false_elim in Hpd as [Hb1 _].
  rewrite rev_involutive.
  destruct (rev after) as [|a1 a]; [|done].
  destruct b1 as [[] [] [] [] [] [] [] []], b; first [done | discriminate Hb1].
Qed.

Lemma append_empty (s : string) : s +:+ EmptyString = s.
Proof.
  induction s as [|c s IH]; [reflexivity|].
  change (String c (s +:+ EmptyString) = String c s). by rewrite IH.
Qed.

Lemma digits_plain (d : Decimal.uint) (c : ascii) :
  (c = "/" ∨ c = ".")%char →
  existsb (Ascii.eqb c) (list_ascii_of_string (NilEmpty.string_of_uint d)) = false.
Proof.
  intros Hc. induction d; cbn [NilEmpty.string_of_uint list_ascii_of_string existsb];
    rewrite ?IHd; destruct Hc as [-> | ->]; reflexivity.
Qed.

Lemma ToString_int_plain (z : Z) (c : ascii) :
  (c = "/" ∨ c = ".")%char →
  existsb (Ascii.eqb c) (list_ascii_of_string (ToString_int z)) = false.
Proof.
  intros Hc. unfold ToString_int, NilZero.string_of_int, NilZero.string_of_uint.
  destruct (Z.to_int z) as [[]|[]];
    cbn [list_ascii_of_string existsb]; rewrite ?digits_plain by done;
    destruct Hc as [-> | ->]; reflexivity.
Qed.

(** X1: the name a stored upload gets contains no path separator, whatever
    the name the client gave, and has the extension of that name. *)
Theorem filename_flat_with_extension (now random : Z) (originalname : string) :
  0 ≤ now < 10 ^ 21 → 0 ≤ random ≤ 10 ^ 9 →
  includes (filename now random originalname) "/" = false
  ∧ extname (filename now random originalname) = extname originalname.
Proof.
  intros _ _. unfold filename.
  set (prefix := ToString_int now +:+ "-" +:+ ToString_int random).
  assert (∀ c, (c = "/" ∨ c = ".")%char →
               existsb (Ascii.eqb c) (list_ascii_of_string prefix) = false) as Hprefix.
  { intros c Hc. subst prefix. rewrite !chars_app, !existsb_app.
    rewrite !ToString_int_plain by done.
    destruct Hc as [-> | ->]; reflexivity. }
  assert (list_ascii_of_string prefix ≠ []) as Hne.
  { subst prefix. rewrite !chars_app. cbn [list_ascii_of_string app].
    by destruct (list_ascii_of_string (ToString_int now)). }
  destruct (extname_cases originalname) as [-> | (after & -> & Hs & Hd)].
  - rewrite append_empty.
    rewrite includes_char, Hprefix by auto.
    by rewrite extname_no_dot by auto.
  - rewrite includes_char, chars_app, existsb_app, chars_of_list, Hprefix by auto.
    cbn [existsb orb]. split; [done|].
    rewrite <- (string_of_list_ascii_of_string (prefix +:+ _)), chars_app, chars_of_list.
    by apply extname_append; auto.
Qed.

Lemma filename_flat_with_extension_witness :
  includes (filename 1700000000000 42 "../../etc/passwd.PNG") "/" = false
  ∧ extname (filename 1700000000000 42 "../../etc/passwd.PNG") = ".PNG".
Proof.
  destruct (filename_flat_with_extension 1700000000000 42 "../../etc/passwd.PNG")
    as [H1 H2]; [split; [discriminate | reflexivity] | split; discriminate |].
  split; [exact H1|]. rewrite H2. reflexivity.
Defined.

(** X2: a file whose name has no dot is refused, whatever its type. *)
Theorem fileFilter_needs_extension (originalname mimetype : string) :
  includes originalname "." = false →
  fileFilter originalname mimetype = inl "Images only!".
Proof.
  rewrite includes_char. intros Hdot.
  unfold fileFilter. by rewrite extname_no_dot.
Qed.

Lemma fileFilter_needs_extension_witness :
  fileFilter "png" "image/png" = inl "Images only!".
Proof. apply fileFilter_needs_extension. reflexivity. Defined.

Lemma lower_is (c d : ascii) :
  (d = "/" ∨ d = ".")%char → Ascii.eqb (lower c) d = Ascii.eqb c d.
Proof.
  intros [-> | ->]; by destruct c as [[] [] [] [] [] [] [] []].
Qed.

Lemma chars_toLowerCase (s : string) :
  list_ascii_of_string (toLowerCase s) = map lower (list_ascii_of_string s).
Proof. induction s as [|c s IH]; [done|]. simpl. by rewrite IH. Qed.

Lemma toLowerCase_of_list (l : list ascii) :
  toLowerCase (string_of_list_ascii l) = string_of_list_ascii (map lower l).
Proof. induction l as [|c l IH]; [done|]. simpl. by rewrite IH. Qed.

Lemma drop_slashes_lower (l : list ascii) :
  drop_slashes (map lower l) = map lower (drop_slashes l).
Proof.
  induction l as [|c l IH]; [done|]. cbn [map drop_slashes].
  rewrite lower_is by auto. by destruct (Ascii.eqb c "/").
Qed.

Lemma last_portion_lower (l : list ascii) :
  last_portion (map lower l) = map lower (last_portion l).
Proof.
  induction l as [|c l IH]; [done|]. cbn [map last_portion].
  rewrite lower_is by auto. destruct (Ascii.eqb c "/"); [done|].
  cbn [map]. by rewrite IH.
Qed.

Lemma split_dot_lower (l : list ascii) :
  split_dot (map lower l)
  = (λ ab, (map lower (fst ab), map lower (snd ab))) <$> split_dot l.
Proof.
  induction l as [|c l IH]; [done|]. cbn [map split_dot].
  rewrite lower_is by auto. destruct (Ascii.eqb c "."); [done|].
  rewrite IH. by destruct (split_dot l) as [[a b]|].
Qed.

Lemma extname_toLowerCase (s : string) :
  extname (toLowerCase s) = toLowerCase (extname s).
Proof.
  unfold extname.
  rewrite chars_toLowerCase, <- List.map_rev, drop_slashes_lower, last_portion_lower,
    split_dot_lower.
  destruct (split_dot _) as [[a b]|]; [|done].
  cbn [fmap option_fmap option_map fst snd].
  destruct a as [|a1 a], b as [|b1 b]; cbn [map]; try done.
  - destruct b1 as [[] [] [] [] [] [] [] []], b; done.
  - rewrite toLowerCase_of_list. cbn [map]. by rewrite List.map_rev.
Qed.

(** X3: the file filter reads the name without regard to the case of its
    letters: two names that differ in case only are both accepted or both
    refused. *)
Theorem fileFilter_name_case (name1 name2 mimetype : string) :
  toLowerCase name1 = toLowerCase name2 →
  fileFilter name1 mimetype = fileFilter name2 mimetype.
Proof.
  intros Hsame. unfold fileFilter.
  by rewrite <- !extname_toLowerCase, Hsame.
Qed.

Lemma fileFilter_name_case_witness :
  fileFilter "Photo.PNG" "image/png" = fileFilter "photo.png" "image/png".
Proof. apply fileFilter_name_case. reflexivity. Defined.

Lemma includes_head (s w : string) (c : ascii) :
  includes s (String c w) = true →
  existsb (Ascii.eqb c) (list_ascii_of_string s) = true.
Proof.
  induction s as [|d s IH]; [discriminate|].
  cbn [includes startsWith list_ascii_of_string existsb].
  intros [[-> _]%andb_prop | Hs]%orb_prop; [reflexivity|].
  rewrite IH by done. apply orb_true_r.
Qed.

Lemma no_small_letter (s : string) (c : ascii) :
  is_small_letter c = true →
  existsb is_small_letter (list_ascii_of_string s) = false →
  existsb (Ascii.eqb c) (list_ascii_of_string s) = false.
Proof.
  intros Hc. induction (list_ascii_of_string s) as [|d l IH]; [done|].
  cbn [existsb]. intros [Hd Hl]%orb_false_elim. rewrite IH, orb_false_r by done.
  destruct (Ascii.eqb_spec c d) as [->|]; congruence.
Qed.

(** X4: the type is read as it is sent: a type without a small letter, such
    as IMAGE/PNG, is refused whatever the name of the file. *)
Theorem fileFilter_mimetype_case (originalname mimetype : string) :
  existsb is_small_letter (list_ascii_of_string mimetype) = false →
  fileFilter originalname mimetype = inl "Images only!".
Proof.
  intros Hcaps. unfold fileFilter.
  assert (types_test mimetype = false) as ->; [|by rewrite andb_false_r].
  unfold types_test, types. cbn [existsb].
  repeat match goal with
  | |- context [includes mimetype (String ?c ?w)] =>
      let H := fresh in
      destruct (includes mimetype (String c w)) eqn:H;
      [apply includes_head in H;
       rewrite (no_small_letter mimetype c) in H by done; discriminate|]
  end.
  reflexivity.
Qed.

Lemma fileFilter_mimetype_case_witness :
  fileFilter "photo.png" "IMAGE/PNG" = inl "Images only!".
Proof. apply fileFilter_mimetype_case. reflexivity. Defined.

End Uploads.

(* ===================================================================== *)
(** ** Further properties of the image URL helper *)
(* ===================================================================== *)

Lemma append_not_empty (a b : string) (c : ascii) :
  a +:+ String c b ≠ EmptyString.
Proof. by destruct a. Qed.

Lemma startsWith_app (p s : string) : startsWith (p +:+ s) p = true.
Proof.
  induction p as [|c p IH]; [by destruct s|].
  change (String c p +:+ s) with (String c (p +:+ s)).
  cbn [startsWith]. by rewrite Ascii.eqb_refl, IH.
Qed.

Lemma getImageUrl_absolute (s : string) (req : request) :
  startsWith s "http://" || startsWith s "https://" = true →
  getImageUrl (Str s) req = Return (Str s).
Proof.
  intros Habs. unfold getImageUrl. rewrite Habs.
  assert (truthy (Str s) = true) as ->; [|done].
  apply orb_prop in Habs as [H | H];
    eapply startsWith_nonempty; eauto; discriminate.
Qed.

(** X5: for a request over http or https, [getImageUrl] applied to one of
    its own results gives that result again. *)
Theorem getImageUrl_idempotent (v r : value) (req : request) :
  protocol req = "http" ∨ protocol req = "https" →
  getImageUrl v req = Return r →
  getImageUrl r req = Return r.
Proof.
  intros Hp. unfold getImageUrl at 1.
  destruct (negb (truthy v)) eqn:Ht; [by intros [= <-]|].
  destruct v as [| |s|n]; try discriminate.
  destruct (startsWith s "http://" || startsWith s "https://") eqn:Habs.
  { intros [= <-]. by apply getImageUrl_absolute. }
  destruct (startsWith s "/uploads/") eqn:Hup.
  - intros [= <-]. apply getImageUrl_absolute.
    destruct Hp as [-> | ->].
    + change ("http" +:+ "://" +:+ host req +:+ s)
        with ("http://" +:+ host req +:+ s).
      by rewrite startsWith_app.
    + change ("https" +:+ "://" +:+ host req +:+ s)
        with ("https://" +:+ host req +:+ s).
      rewrite (startsWith_app "https://"). apply orb_true_r.
  - intros [= <-]. unfold getImageUrl. by rewrite Ht, Habs, Hup.
Qed.

Lemma getImageUrl_idempotent_witness :
  getImageUrl (Str "https://shop.example/uploads/17-42.png") secure_request
  = Return (Str "https://shop.example/uploads/17-42.png").
Proof.
  apply (getImageUrl_idempotent (Str "/uploads/17-42.png")); [by right|].
  reflexivity.
Defined.

(** X6: [getImageUrl] never returns an empty string or undefined: its
    result is null or a string that is not empty. *)
Theorem getImageUrl_result (v r : value) (req : request) :
  getImageUrl v req = Return r →
  r = Null ∨ ∃ s, r = Str s ∧ s ≠ EmptyString.
Proof.
  unfold getImageUrl.
  destruct (negb (truthy v)) eqn:Ht; [intros [= <-]; by left|].
  destruct v as [| |s|n]; try discriminate.
  assert (s ≠ EmptyString) as Hs by (intros ->; discriminate Ht).
  repeat case_match; intros [= <-]; right; eexists; split; try reflexivity;
    [done | apply append_not_empty | done].
Qed.

Lemma getImageUrl_result_witness :
  Str "http://localhost:3001/uploads/a.png" = Null
  ∨ ∃ s, Str "http://localhost:3001/uploads/a.png" = Str s ∧ s ≠ EmptyString.
Proof.
  apply (getImageUrl_result (Str "/uploads/a.png") _ local_request). reflexivity.
Defined.

Lemma getImageUrl_Throw_inv (v : value) (req : request) (e : exn) :
  getImageUrl v req = Throw e → e = TypeError ∧ ∃ n, v = Num n ∧ truthy (Num n) = true.
Proof.
  unfold getImageUrl.
  destruct (truthy v) eqn:Ht; [|discriminate]. cbn [negb].
  destruct v as [| |s|n]; try discriminate.
  - repeat case_match; discriminate.
  - intros [= <-]. eauto.
Qed.

(** X7: a stored image reference that is a number other than 0 and NaN
    makes [getImageUrl] throw a TypeError (a number has no [startsWith]);
    the numbers 0 and NaN are falsy and give null; a string never makes it
    throw. *)
Theorem getImageUrl_throws (n : number) (req : request) :
  (truthy (Num n) = true → getImageUrl (Num n) req = Throw TypeError)
  ∧ (truthy (Num n) = false → getImageUrl (Num n) req = Return Null)
  ∧ (∀ z, z ≠ 0 → getImageUrl (Num (Int z)) req = Throw TypeError)
  ∧ (∀ b, getImageUrl (Num (Infinity b)) req = Throw TypeError)
  ∧ getImageUrl (Num (Int 0)) req = Return Null
  ∧ getImageUrl (Num NaN) req = Return Null
  ∧ (∀ s, ∃ r, getImageUrl (Str s) req = Return r).
Proof.
  unfold getImageUrl.
  split; [by intros ->|]. split; [by intros ->|].
  split. { intros z Hz. cbn [truthy]. by rewrite (proj2 (Z.eqb_neq z 0) Hz). }
  split; [done|]. split; [done|]. split; [done|].
  intros s. repeat case_match; eauto.
Qed.

Lemma getImageUrl_throws_witness :
  getImageUrl (Num (Int 5)) local_request = Throw TypeError
  ∧ getImageUrl (Num (Float 25 (-1))) local_request = Throw TypeError
  ∧ getImageUrl (Num (Float 0 3)) local_request = Return Null.
Proof.
  split; [|split].
  - apply (proj1 (getImageUrl_throws (Int 5) local_request)). reflexivity.
  - apply (proj1 (getImageUrl_throws (Float 25 (-1)) local_request)). reflexivity.
  - apply (proj1 (proj2 (getImageUrl_throws (Float 0 3) local_request))). reflexivity.
Defined.

(* ===================================================================== *)
(** ** Further properties of the list operation *)
(* ===================================================================== *)

(** X8: when the rows of a list are given their full URLs, the result has
    one product for each row, in the same order, and each product is its
    row with the imageUrl replaced by the value [getImageUrl] returns for
    it; every other property of the row is kept. *)
Theorem with_full_urls_pointwise (rows data : list row) (req : request) :
  with_full_urls rows req = Return data →
  length data = length rows
  ∧ ∀ (i : nat) (r : row), rows !! i = Some r →
      ∃ (d : row) (url : value),
        data !! i = Some d
        ∧ getImageUrl (get r "imageUrl") req = Return url
        ∧ d !! "imageUrl" = Some url
        ∧ ∀ k, k ≠ "imageUrl" → d !! k = r !! k.
Proof.
  revert data. induction rows as [|r0 rows IH]; intros data; cbn [with_full_urls].
  - intros [= <-]. split; [done|]. intros i r Hr. by destruct i.
  - destruct (getImageUrl (get r0 "imageUrl") req) as [url| |] eqn:Hurl;
      try discriminate.
    destruct (with_full_urls rows req) as [rest| |]; try discriminate.
    intros [= <-]. destruct (IH rest eq_refl) as [Hlen Hrows].
    split; [cbn [length]; by rewrite Hlen|].
    intros [|i] r Hr.
    + injection Hr as <-. exists (<["imageUrl" := url]> r0), url.
      repeat split; [done | apply lookup_insert_eq |].
      intros k Hk. by apply lookup_insert_ne.
    + by apply Hrows.
Qed.

Lemma with_full_urls_pointwise_witness :
  length [ (<["imageUrl" := Str "http://localhost:3001/uploads/a.png"]>
              ({[ "imageUrl" := Str "/uploads/a.png" ]} : row)) ]
  = length [ ({[ "imageUrl" := Str "/uploads/a.png" ]} : row) ].
Proof.
  apply (with_full_urls_pointwise _ _ local_request). reflexivity.
Defined.

Lemma with_full_urls_cases (rows : list row) (req : request) :
  (∃ data, with_full_urls rows req = Return data)
  ∨ with_full_urls rows req = Throw TypeError.
Proof.
  induction rows as [|r0 rows IH]; cbn [with_full_urls]; [left; eauto|].
  destruct (getImageUrl (get r0 "imageUrl") req) as [url|e|] eqn:Hurl.
  - destruct IH as [[data ->] | ->]; eauto.
  - apply getImageUrl_Throw_inv in Hurl as (-> & _). by right.
  - by apply getImageUrl_modelled in Hurl.
Qed.

(** X9: one row whose image reference is a number other than 0 and NaN
    makes the whole list fail with a TypeError, wherever the row stands and
    whatever the other rows hold: no product is returned.  The list
    operation then answers 500 once the data statement has returned such a
    row, whatever the count statement does. *)
Theorem with_full_urls_throws (rows : list row) (req : request) (r : row) (n : number) :
  r ∈ rows → get r "imageUrl" = Num n → truthy (Num n) = true →
  with_full_urls rows req = Throw TypeError
  ∧ ∀ (DB : Type) (pool : Pool DB) (db db1 : DB) (s : statements),
      list_statements req = Some s →
      select (sql s) (params s) db = (db1, inr rows) →
      ∃ db2, get_products req db
             = (db2, Return {| status := 500;
                               payload := Error "Failed to fetch products" |}).
Proof.
  intros Hr Hn Ht.
  assert (with_full_urls rows req = Throw TypeError) as Hthrow.
  { induction rows as [|r0 rows IH]; [by apply elem_of_nil in Hr|].
    cbn [with_full_urls].
    apply elem_of_cons in Hr as [<- | Hr].
    - rewrite Hn. unfold getImageUrl. by rewrite Ht.
    - rewrite (IH Hr).
      destruct (getImageUrl (get r0 "imageUrl") req) as [url|e|] eqn:Hurl; [done| |].
      + by apply getImageUrl_Throw_inv in Hurl as (-> & _).
      + by apply getImageUrl_modelled in Hurl. }
  split; [exact Hthrow|].
  intros DB pool db db1 s Hs Hsel.
  unfold get_products, try_catch, bind, model, query_rows, pure, ret.
  rewrite Hs, Hsel.
  destruct (select (countSql s) (countParams s) db1) as [db2 [e|[|first rest]]];
    [eauto.. |].
  cbn [lookup list_lookup]. rewrite Hthrow. eauto.
Qed.

Lemma with_full_urls_throws_witness :
  with_full_urls [pictured_row; numbered_row] local_request = Throw TypeError
  ∧ ∃ db2, get_products local_request [[pictured_row; numbered_row]; [five_count]]
           = (db2, Return {| status := 500;
                             payload := Error "Failed to fetch products" |}).
Proof.
  destruct (with_full_urls_throws [pictured_row; numbered_row] local_request
              numbered_row (Int 7)) as [Hthrow Hrun];
    [apply list_elem_of_further, list_elem_of_here | reflexivity | reflexivity |].
  split; [exact Hthrow|].
  destruct (list_statements local_request) as [s|] eqn:Hs;
    [|vm_compute in Hs; discriminate].
  apply (Hrun _ Script.script_pool _ [[five_count]] s); reflexivity.
Defined.



(** X11: a page that is not a number is not refused: the offset is NaN, and
    NaN is the value bound to OFFSET. *)
Theorem page_not_a_number (req : request) (l : number) :
  ToNumber (page_of req) = Some NaN →
  ToNumber (limit_of req) = Some l →
  offset_of (page_of req) (limit_of req) = Some NaN
  ∧ ∃ s lim, list_statements req = Some s
             ∧ params s = countParams s ++ [Num lim; Num NaN].
Proof.
  intros Hp Hl.
  assert (offset_of (page_of req) (limit_of req) = Some NaN) as Ho.
  { unfold offset_of. rewrite Hp, Hl. by destruct l. }
  split; [exact Ho|].
  destruct (parseInt_limit req) as (lim & Hlim & _).
  eexists _, lim. unfold list_statements. rewrite Ho, Hlim.
  split; [reflexivity|]. cbn [params countParams]. by rewrite filters_given.
Qed.

Lemma page_not_a_number_witness :
  ∃ s, list_statements page_abc_request = Some s
       ∧ params s = [Num (Int 10); Num NaN].
Proof.
  destruct (page_not_a_number page_abc_request (Int 10)) as (_ & s & lim & Hs & Hparams);
    [reflexivity | reflexivity |].
  exists s. split; [exact Hs|].
  rewrite Hparams.
  apply list_statements_inv in Hs as (lim' & off & Hlim & _ & ->).
  vm_compute in Hlim. injection Hlim as <-.
  cbn [params countParams] in Hparams.
  apply app_inv_head in Hparams. injection Hparams as <-. reflexivity.
Defined.

Section AnyPool.
Context {DB : Type} `{Pool DB}.


(** X13: the create operation always answers, with 201, 400 or 500. *)
Theorem post_products_status (req : request) (db : DB) :
  ∃ db' r, post_products req db = (db', Return r)
           ∧ (status r = 201 ∨ status r = 400 ∨ status r = 500).
Proof.
  unfold post_products, try_catch, bind, query_rows, query_header, model, pure, ret.
  destruct (_ || _); [eauto 6|].
  rewrite columns_Some.
  destruct (execute _ _ db) as [db1 [e|h]].
  { repeat case_match; eauto 6. }
  destruct (select _ _ db1) as [db2 [e|newProduct]].
  { repeat case_match; eauto 6. }
  destruct (newProduct !! 0%nat) as [r|]; [|eauto 6].
  pose proof (with_full_url_modelled r req).
  destruct (with_full_url r req); [eauto 6 | | congruence].
  repeat case_match; eauto 6.
Qed.

(** X14: a required field supplied as the empty string is refused like a
    missing one: status 400, and the state of the pool is left as it was. *)
Theorem create_empty_field_rejected (req : request) (db : DB) (field : string) :
  field ∈ ["name"; "slug"; "price"; "category"] →
  body req !! field = Some EmptyString →
  post_products req db
  = (db, Return {| status := 400; payload := Error "Missing required fields" |}).
Proof.
  intros Hfield Hempty. unfold post_products, try_catch.
  repeat (apply elem_of_cons in Hfield as [-> | Hfield]);
    [ .. | by apply elem_of_nil in Hfield];
    rewrite Hempty; cbn [prop truthy String.eqb negb orb];
    rewrite ?orb_true_r; reflexivity.
Qed.

End AnyPool.

(* ===================================================================== *)
(** ** The statements the handlers send, over any pool *)
(* ===================================================================== *)

Section Traces.
Context {DB : Type} `{Pool DB}.
Import Trace.

(** X15: the list operation, once its two statements are built, sends the
    data statement, and the count statement after it when the data statement
    is answered; it sends nothing else, and the count statement is not sent
    once the data statement is rejected. *)
Theorem get_products_sends (req : request) (s : traced DB) (st : statements) :
  list_statements req = Some st →
  trace (fst (get_products req s))
  = trace s
    ++ (sql st, params st)
       :: match select (sql st) (params st) (inner s) with
          | (_, inr _) => [(countSql st, countParams st)]
          | (_, inl _) => []
          end.
Proof.
  intros Hst.
  unfold get_products, try_catch, bind, model, query_rows, pure, ret.
  rewrite Hst.
  cbn [select traced_pool inner trace].
  destruct (select (sql st) (params st) (inner s)) as [db1 [e|rows]]; [done|].
  cbn [select traced_pool inner trace].
  destruct (select (countSql st) (countParams st) db1) as [db2 [e|countResult]].
  { cbn [fst trace]. by rewrite <- app_assoc. }
  repeat case_match; simplify_eq; cbn [fst trace]; by rewrite <- app_assoc.
Qed.

(** X16: a create that fails the validation sends nothing.  Otherwise the
    INSERT is sent with the values read from the body, whether or not the
    price and the stock are numbers, and the SELECT of the new product is
    sent after it only when the INSERT is answered, bound to its insertId. *)
Theorem post_products_sends (req : request) (s : traced DB) :
  trace (fst (post_products req s))
  = trace s
    ++ if complete req then
         let values := bound_columns req (final_image_url Null req) in
         (INSERT, values)
         :: match execute INSERT values (inner s) with
            | (_, inr result) => [(SELECT_BY_ID, [Num (Int (insertId result))])]
            | (_, inl _) => []
            end
       else [].
Proof.
  unfold post_products, try_catch, bind, model, query_rows, query_header, pure, ret, complete.
  destruct (truthy (prop (body req !! "name"))),
    (truthy (prop (body req !! "slug"))),
    (truthy (prop (body req !! "price"))),
    (truthy (prop (body req !! "category")));
    cbn [negb orb andb]; try by rewrite app_nil_r.
  rewrite columns_Some. fold (bound_columns req (final_image_url Null req)).
  cbn [execute traced_pool inner trace].
  destruct (execute INSERT _ (inner s)) as [db1 [e|result]].
  { repeat case_match; done. }
  cbn [select traced_pool inner trace insertId].
  destruct (select SELECT_BY_ID _ db1) as [db2 [e|newProduct]].
  { repeat case_match; simplify_eq; cbn [fst trace]; by rewrite <- app_assoc. }
  repeat case_match; simplify_eq; cbn [fst trace]; by rewrite <- app_assoc.
Qed.

(** X17: an update first sends the SELECT of the product.  The UPDATE is
    sent only when that SELECT returns a row, bound to the values read from
    the body, the image reference and the id; the second SELECT is sent only
    when the UPDATE is answered.  Nothing else is sent. *)
Theorem put_products_sends (req : request) (s : traced DB) :
  trace (fst (put_products req s))
  = trace s
    ++ (SELECT_BY_ID, [Str (params_id req)])
       :: match select SELECT_BY_ID [Str (params_id req)] (inner s) with
          | (db1, inr (first :: _)) =>
              let values :=
                bound_columns req (final_image_url (get first "imageUrl") req)
                ++ [Str (params_id req)] in
              (UPDATE, values)
              :: match execute UPDATE values db1 with
                 | (_, inr _) => [(SELECT_BY_ID, [Str (params_id req)])]
                 | (_, inl _) => []
                 end
          | _ => []
          end.
Proof.
  unfold put_products, try_catch, bind, model, query_rows, query_header, pure, ret.
  cbn [select traced_pool inner trace].
  destruct (select SELECT_BY_ID _ (inner s)) as [db1 [e|[|first existing]]];
    [done | done |].
  rewrite columns_Some.
  fold (bound_columns req (final_image_url (get first "imageUrl") req)).
  cbn [execute traced_pool inner trace].
  destruct (execute UPDATE _ db1) as [db2 [e|result]].
  { cbn [fst trace]. by rewrite <- app_assoc. }
  cbn [select traced_pool inner trace].
  destruct (select SELECT_BY_ID _ db2) as [db3 [e|updated]].
  { cbn [fst trace]. by rewrite <- !app_assoc. }
  repeat case_match; simplify_eq; cbn [fst trace]; by rewrite <- !app_assoc.
Qed.

End Traces.

(* ===================================================================== *)
(** ** Properties of the other routes and of the configuration *)
(* ===================================================================== *)

Section OtherRoutes.
Context {DB : Type} `{Pool DB}.
Import Routes.

(** The health check answers 200 as soon as the probe returns a row, with
    [db] true only when the [ok] of that row is the number 1; it answers 500
    with the message of the error when the probe is rejected, and also when
    it returns no row. *)
Lemma health_cases (message : exn → string) (db : DB) :
  health message db
  = match select SELECT_ONE [] db with
    | (db', inl e) =>
        (db', Return {| code := 500; content := HealthError (message e) |})
    | (db', inr []) =>
        (db', Return {| code := 500; content := HealthError (message TypeError) |})
    | (db', inr (first :: _)) =>
        (db', Return {| code := 200;
                        content := Health (bool_decide (get first "ok" = Num (Int 1))) |})
    end.
Proof.
  unfold health, try_catch, bind, query_rows, pure, ret.
  by destruct (select SELECT_ONE [] db) as [db' [e|[|first rows]]].
Qed.

(** The names of the categories are the [category] of the rows, in the
    order the pool returns them. *)
Lemma categories_cases (db : DB) :
  categories db
  = match select SELECT_CATEGORIES [] db with
    | (db', inl e) =>
        (db', Return {| code := 500; content := Failure "Failed to fetch categories" |})
    | (db', inr rows) =>
        (db', Return {| code := 200;
                        content := Categories ((λ r, get r "category") <$> rows) |})
    end.
Proof.
  unfold categories, try_catch, bind, query_rows, ret.
  by destruct (select SELECT_CATEGORIES [] db) as [db' [e|rows]].
Qed.

(** A variable of the environment that is unset or empty gives way to the
    default. *)
Lemma env_or_default (env : environment) (key : string) (fallback : value) :
  env !! key = None ∨ env !! key = Some EmptyString →
  env_or env key fallback = fallback.
Proof. unfold env_or. by intros [-> | ->]. Qed.

Lemma post_201_inv (req : request) (db db' : DB) (r : response) :
  post_products req db = (db', Return r) → status r = 201 →
  ∃ db1 result first rest p,
    complete req = true
    ∧ execute INSERT (bound_columns req (final_image_url Null req)) db = (db1, inr result)
    ∧ select SELECT_BY_ID [Num (Int (insertId result))] db1 = (db', inr (first :: rest))
    ∧ with_full_url first req = Return p
    ∧ r = {| status := 201; payload := Product p |}.
Proof.
  unfold post_products, try_catch, bind, model, query_rows, query_header, pure, ret, complete.
  intros Hrun Hstatus.
  destruct (truthy (prop (body req !! "name"))),
    (truthy (prop (body req !! "slug"))),
    (truthy (prop (body req !! "price"))),
    (truthy (prop (body req !! "category")));
    cbn [negb orb andb] in Hrun; try (simplify_eq; discriminate).
  rewrite columns_Some in Hrun.
  fold (bound_columns req (final_image_url Null req)) in Hrun.
  destruct (execute INSERT _ db) as [db1 [e|result]] eqn:Hexec.
  { repeat case_match; simplify_eq; discriminate. }
  destruct (select SELECT_BY_ID _ db1) as [db2 [e|[|first rest]]] eqn:Hsel.
  - repeat case_match; simplify_eq; discriminate.
  - cbn in Hrun. simplify_eq; discriminate.
  - cbn [lookup list_lookup] in Hrun.
    destruct (with_full_url first req) as [p|e|] eqn:Hp.
    + injection Hrun as <- <-. by eexists _, _, _, _, _.
    + repeat case_match; simplify_eq; discriminate.
    + discriminate.
Qed.

Lemma put_200_inv (req : request) (db db' : DB) (r : response) :
  put_products req db = (db', Return r) → status r = 200 →
  ∃ db2 first rest p,
    select SELECT_BY_ID [Str (params_id req)] db2 = (db', inr (first :: rest))
    ∧ with_full_url first req = Return p
    ∧ r = {| status := 200; payload := Product p |}.
Proof.
  unfold put_products, try_catch, bind, model, query_rows, query_header, pure, ret.
  destruct (select SELECT_BY_ID _ db) as [db1 [e|[|first existing]]];
    try (intros [= <- <-]; discriminate).
  rewrite columns_Some.
  destruct (execute UPDATE _ db1) as [db2 [e|result]];
    try (intros [= <- <-]; discriminate).
  destruct (select SELECT_BY_ID _ db2) as [db3 [e|[|updated rest]]] eqn:Hsel;
    try (intros [= <- <-]; discriminate).
  cbn [lookup list_lookup].
  destruct (with_full_url updated req) as [p|e|] eqn:Hp;
    try (intros [= <- <-]; discriminate).
  intros [= <- <-] _. by eexists _, _, _, _.
Qed.

End OtherRoutes.

(* ===================================================================== *)
(** ** How the operations compose, on the products table *)
(* ===================================================================== *)

Section RoundTrips.
Import Store Routes.

Lemma select_keeps_table (text : string) (values : list value) (t t' : table)
    (x : exn + list row) :
  select text values t = (t', x) → t' = t.
Proof.
  cbn [select table_pool]. unfold select_by_id.
  repeat case_match; congruence.
Qed.

Lemma select_by_key (v v' : value) (t : table) :
  key_of v = key_of v' →
  select SELECT_BY_ID [v] t = select SELECT_BY_ID [v'] t.
Proof.
  intros Hk. cbn [select table_pool]. rewrite String.eqb_refl.
  unfold select_by_id. by rewrite Hk.
Qed.

Lemma with_full_url_same_origin (p : row) (req req' : request) :
  protocol req' = protocol req → host req' = host req →
  with_full_url p req' = with_full_url p req.
Proof. intros Hp Hh. unfold with_full_url, getImageUrl. by rewrite Hp, Hh. Qed.

Lemma get_product_of_select (req : request) (t t' : table)
    (first p : row) (rest : list row) :
  select SELECT_BY_ID [Str (params_id req)] t = (t', inr (first :: rest)) →
  with_full_url first req = Return p →
  get_product req t = (t', Return {| status := 200; payload := Product p |}).
Proof.
  intros Hsel Hp. unfold get_product, try_catch, bind, query_rows, pure, ret.
  by rewrite Hsel, Hp.
Qed.

(** The table a create that answered 201 leaves, and its response. *)
Lemma post_201_table (req : request) (t t' : table) (p : row) :
  post_products req t = (t', Return {| status := 201; payload := Product p |}) →
  let k := auto_increment t in
  let new := written req k (final_image_url Null req) in
  t' = {| products := <[k := new]> (products t); auto_increment := k + 1 |}
  ∧ with_full_url (to_row new) req = Return p.
Proof.
  intros Hrun.
  apply post_201_inv in Hrun
    as (t1 & result & first & rest & p' & _ & Hexec & Hsel & Hp & [= <-]); [|done].
  cbn [execute table_pool] in Hexec. rewrite String.eqb_refl in Hexec.
  unfold insert_product, bound_columns in Hexec.
  cbn [fmap list_fmap] in Hexec.
  destruct (negb (forallb finite _)); [discriminate|].
  destruct (taken _ None t); [discriminate|].
  injection Hexec as <- <-. cbn [insertId] in Hsel.
  erewrite (select_hit _ _ (auto_increment t)) in Hsel;
    [| reflexivity | apply lookup_insert_eq].
  injection Hsel as <- <- <-. by split.
Qed.

(** X18: the product a create answers with can be read back: a GET of the
    id the response carries, from the same origin, answers 200 with the
    same product and leaves the table as the create left it. *)
Theorem create_then_get (req req' : request) (t t' : table) (p : row) :
  post_products req t = (t', Return {| status := 201; payload := Product p |}) →
  protocol req' = protocol req → host req' = host req →
  (∀ k, p !! "id" = Some (Num (Int k)) → key_of (Str (params_id req')) = Some k) →
  get_product req' t' = (t', Return {| status := 200; payload := Product p |}).
Proof.
  intros Hrun Hprotocol Hhost Hid.
  apply post_201_table in Hrun as [-> Hp].
  set (k := auto_increment t) in *.
  set (new := written req k (final_image_url Null req)) in *.
  assert (p !! "id" = Some (Num (Int k))) as Hk.
  { unfold with_full_url in Hp.
    destruct (getImageUrl _ req) as [url| |]; try discriminate.
    injection Hp as <-. by rewrite lookup_insert_ne. }
  eapply get_product_of_select.
  - apply (select_hit _ _ k new); [by apply Hid | apply lookup_insert_eq].
  - by rewrite (with_full_url_same_origin _ req).
Qed.

(** X19: the product an update answers with can be read back: a GET of the
    same request answers 200 with the same product, and leaves the table as
    the update left it. *)
Theorem update_then_get (req : request) (t t' : table) (p : row) :
  put_products req t = (t', Return {| status := 200; payload := Product p |}) →
  get_product req t' = (t', Return {| status := 200; payload := Product p |}).
Proof.
  intros Hrun.
  apply put_200_inv in Hrun as (t2 & first & rest & p' & Hsel & Hp & [= <-]); [|done].
  pose proof (select_keeps_table _ _ _ _ _ Hsel) as ->.
  by eapply get_product_of_select.
Qed.

(** X20: a GET of an id under which the table has no product answers 404
    and leaves the table as it was; a GET of a stored product answers 200
    with its row, the image reference made a full URL. *)
Theorem get_product_on_table (req : request) (t : table) :
  ((key_of (Str (params_id req)) ≫= λ k, products t !! k) = None →
   get_product req t
   = (t, Return {| status := 404; payload := Error "Product not found" |}))
  ∧ (∀ k p, key_of (Str (params_id req)) = Some k → products t !! k = Some p →
            reference (imageUrl p) →
            ∃ url, getImageUrl (imageUrl p) req = Return url
                   ∧ get_product req t
                     = (t, Return {| status := 200;
                                     payload := Product (<["imageUrl" := url]> (to_row p)) |})).
Proof.
  split.
  - intros Hnone. unfold get_product, try_catch, bind, query_rows, pure, ret.
    cbn [select table_pool]. rewrite String.eqb_refl. unfold select_by_id.
    by rewrite Hnone.
  - intros k p Hk Hp Href.
    destruct (with_full_url_reference p req Href) as [r Hr].
    unfold with_full_url in Hr. rewrite get_imageUrl_to_row in Hr.
    destruct (getImageUrl (imageUrl p) req) as [url| |] eqn:Hurl; try discriminate.
    exists url. split; [done|].
    eapply get_product_of_select; [by apply (select_hit _ _ k p)|].
    unfold with_full_url. by rewrite get_imageUrl_to_row, Hurl.
Qed.

(** X21: a create whose four required fields are there, whose price and
    stock are finite numbers and whose slug is the slug of a stored product
    answers 400 with the duplicate message and stores nothing. *)
Theorem create_duplicate_on_table (req : request) (t : table) :
  complete req = true →
  finite (Num (parseFloat (prop (body req !! "price")))) = true →
  infinite (parsed_int (body req !! "stock")) = false →
  taken (sql_value (prop (body req !! "slug"))) None t = true →
  post_products req t
  = (t, Return {| status := 400; payload := Error "Product slug already exists" |}).
Proof.
  unfold complete. intros Hfields Hprice Hstock Htaken.
  apply andb_prop in Hfields as [Hfields Hc].
  apply andb_prop in Hfields as [Hfields Hp].
  apply andb_prop in Hfields as [Hn Hs].
  eapply create_duplicate_slug; [| apply columns_Some |].
  - intros field Hfield.
    repeat (apply elem_of_cons in Hfield as [-> | Hfield]);
      [done .. | by apply elem_of_nil in Hfield].
  - assert (reference (final_image_url Null req)) as Hfinal
      by (apply reference_final; by left).
    cbn [execute table_pool]. rewrite String.eqb_refl. unfold insert_product.
    pose proof (columns_finite req (final_image_url Null req) Null Hprice Hstock) as Hfin.
    rewrite forallb_app in Hfin. apply andb_prop in Hfin as [-> _];
      [| rewrite <- (reference_sql_value _ Hfinal); by apply reference_finite | done].
    cbn [fmap list_fmap negb]. by rewrite Htaken.
Qed.

(** X22: an update of an id under which the table has no product answers
    404 and changes nothing. *)
Theorem update_unknown_on_table (req : request) (t : table) :
  (key_of (Str (params_id req)) ≫= λ k, products t !! k) = None →
  put_products req t
  = (t, Return {| status := 404; payload := Error "Product not found" |}).
Proof.
  intros Hnone. unfold put_products, try_catch, bind, query_rows, pure, ret.
  cbn [select table_pool]. rewrite String.eqb_refl. unfold select_by_id.
  by rewrite Hnone.
Qed.

End RoundTrips.

Section Deleting.
Import Store Routes.

(** X23: once a delete has answered 200, the product is gone: a GET of the
    same id answers 404, a second delete answers 404, and the table is the
    former one without the product under that id. *)
Theorem delete_then_gone (req : request) (t t' : table) (a : answer) :
  Catalogue.remove req t = (t', Return a) → code a = 200 →
  a = {| code := 200; content := Deleted "Product deleted" (params_id req) |}
  ∧ (∃ k, key_of (Str (params_id req)) = Some k
          ∧ products t' = delete k (products t)
          ∧ auto_increment t' = auto_increment t)
  ∧ get_product req t'
    = (t', Return {| status := 404; payload := Error "Product not found" |})
  ∧ Catalogue.remove req t'
    = (t', Return {| code := 404; content := Failure "Product not found" |}).
Proof.
  unfold Catalogue.remove, delete_product, try_catch, bind, query_header, ret.
  cbn [execute Catalogue.pool]. rewrite String.eqb_refl.
  unfold Catalogue.delete_by_id at 1.
  destruct (key_of (Str (params_id req))) as [k|] eqn:Hk;
    [|intros [= <- <-]; discriminate].
  destruct (products t !! k) as [p|] eqn:Hp; [|intros [= <- <-]; discriminate].
  cbn [affectedRows Z.eqb]. intros [= <- <-] _.
  split; [done|]. split; [by exists k|]. split.
  - unfold get_product, try_catch, bind, query_rows, pure, ret.
    cbn [select table_pool]. rewrite String.eqb_refl. unfold select_by_id.
    rewrite Hk. cbn [mbind option_bind products]. by rewrite lookup_delete_eq.
  - unfold Catalogue.delete_by_id. rewrite Hk. cbn [products]. by rewrite lookup_delete_eq.
Qed.

Lemma delete_then_gone_witness :
  get_product bowl_request shop_without_bowl
  = (shop_without_bowl,
     Return {| status := 404; payload := Error "Product not found" |}).
Proof.
  by destruct (delete_then_gone bowl_request shop shop_without_bowl
                 {| code := 200; content := Deleted "Product deleted" "2" |}
                 eq_refl eq_refl) as (_ & _ & Hget & _).
Defined.

(** X24: a delete of an id under which the table has no product answers
    404 and changes nothing. *)
Theorem delete_unknown_on_table (req : request) (t : table) :
  (key_of (Str (params_id req)) ≫= λ k, products t !! k) = None →
  Catalogue.remove req t
  = (t, Return {| code := 404; content := Failure "Product not found" |}).
Proof.
  intros Hnone.
  unfold Catalogue.remove, delete_product, try_catch, bind, query_header, ret.
  cbn [execute Catalogue.pool]. rewrite String.eqb_refl. unfold Catalogue.delete_by_id.
  destruct (key_of (Str (params_id req))) as [k|]; [|done].
  cbn [mbind option_bind] in Hnone. by rewrite Hnone.
Qed.

Lemma delete_unknown_on_table_witness :
  Catalogue.remove ghost_request shop
  = (shop, Return {| code := 404; content := Failure "Product not found" |}).
Proof. apply delete_unknown_on_table. reflexivity. Defined.

(** X25: a create with an uploaded file that answers 201 stores the path
    /uploads/ + the name of the stored file, and answers with the full URL
    of that path on the origin of the request. *)
Theorem upload_stored_and_answered
    (req : request) (t t' : table) (p : row) (filename : string) :
  post_products req t = (t', Return {| status := 201; payload := Product p |}) →
  file req = Some filename →
  imageUrl <$> products t' !! auto_increment t = Some (Str ("/uploads/" +:+ filename))
  ∧ p !! "imageUrl"
    = Some (Str (protocol req +:+ "://" +:+ host req +:+ "/uploads/" +:+ filename)).
Proof.
  intros Hrun Hfile. apply post_201_table in Hrun as [-> Hp].
  unfold with_full_url in Hp. rewrite get_imageUrl_to_row in Hp.
  cbn [imageUrl written products] in *. unfold final_image_url in *.
  rewrite Hfile in *. cbn [sql_value] in Hp.
  split; [by rewrite lookup_insert_eq|].
  unfold getImageUrl in Hp.
  rewrite (uploads_not_absolute _ (startsWith_app "/uploads/" filename)),
    (startsWith_app "/uploads/" filename) in Hp.
  cbn in Hp. injection Hp as <-. by rewrite lookup_insert_eq.
Qed.

End Deleting.

(* ===================================================================== *)
(** ** The properties above on sample requests *)
(* ===================================================================== *)


Lemma get_products_sends_witness :
  Trace.trace
    (fst (get_products kitchen_request
            {| Trace.inner := [[]; [five_count]]; Trace.trace := [] |}))
  = [("SELECT * FROM products WHERE 1=1 AND (name LIKE ? OR description LIKE ?) AND category = ? AND price <= ? ORDER BY createdAt DESC LIMIT ? OFFSET ?",
      [Str "%mug%"; Str "%mug%"; Str "kitchen"; Num (Float 105 (-1));
       Num (Int 2); Num (Int 2)]);
     ("SELECT COUNT(*) as total FROM products WHERE 1=1 AND (name LIKE ? OR description LIKE ?) AND category = ? AND price <= ?",
      [Str "%mug%"; Str "%mug%"; Str "kitchen"; Num (Float 105 (-1))])].
Proof.
  destruct (list_statements kitchen_request) as [st|] eqn:Hst;
    [|vm_compute in Hst; discriminate].
  rewrite (get_products_sends kitchen_request _ st Hst).
  vm_compute in Hst. injection Hst as <-. reflexivity.
Defined.

Lemma create_empty_field_rejected_witness :
  post_products nameless {| Script.sent := [] |}
  = ({| Script.sent := [] |},
     Return {| status := 400; payload := Error "Missing required fields" |}).
Proof.
  apply (create_empty_field_rejected nameless _ "name");
    [repeat constructor | reflexivity].
Defined.

Lemma create_then_get_witness :
  Routes.get_product plate_request shop_with_plate
  = (shop_with_plate,
     Return {| status := 200;
               payload := Product
                 (<["imageUrl" := Str "http://localhost:3001/uploads/1700000000001-7.png"]>
                    (Store.to_row plate)) |}).
Proof.
  apply (create_then_get new_plate plate_request shop);
    [vm_compute; reflexivity | reflexivity | reflexivity |].
  intros k Hk. vm_compute in Hk. injection Hk as <-. reflexivity.
Defined.

Lemma update_then_get_witness :
  Routes.get_product reprice_mug shop_repriced
  = (shop_repriced,
     Return {| status := 200;
               payload := Product
                 (<["imageUrl" := Str "http://localhost:3001/uploads/1700000000000-42.png"]>
                    (Store.to_row repriced_mug)) |}).
Proof.
  apply (update_then_get reprice_mug shop). vm_compute. reflexivity.
Defined.

Lemma get_product_on_table_witness :
  Routes.get_product ghost_request shop
  = (shop, Return {| status := 404; payload := Error "Product not found" |})
  ∧ ∃ url, getImageUrl (Store.imageUrl bowl) bowl_request = Return url
           ∧ Routes.get_product bowl_request shop
             = (shop, Return {| status := 200;
                                payload := Product (<["imageUrl" := url]> (Store.to_row bowl)) |}).
Proof.
  destruct (get_product_on_table ghost_request shop) as [Hmissing _].
  destruct (get_product_on_table bowl_request shop) as [_ Hfound].
  split; [by apply Hmissing|].
  apply (Hfound 2 bowl); [reflexivity | reflexivity | by left].
Defined.

Lemma create_duplicate_on_table_witness :
  post_products bowl_as_mug shop
  = (shop, Return {| status := 400; payload := Error "Product slug already exists" |}).
Proof. apply create_duplicate_on_table; reflexivity. Defined.

Lemma update_unknown_on_table_witness :
  put_products ghost_request shop
  = (shop, Return {| status := 404; payload := Error "Product not found" |}).
Proof. apply update_unknown_on_table. reflexivity. Defined.

Lemma upload_stored_and_answered_witness :
  Store.imageUrl <$> Store.products shop_with_plate !! 3
  = Some (Str "/uploads/1700000000001-7.png").
Proof.
  by destruct (upload_stored_and_answered new_plate shop shop_with_plate
                 (<["imageUrl" := Str "http://localhost:3001/uploads/1700000000001-7.png"]>
                    (Store.to_row plate))
                 "1700000000001-7.png" eq_refl eq_refl) as [Hstored _].
Defined.
